(** * Accounting services: role authorization and impact aggregation

    A shallow embedding of

    - [libs/utils/.../organizationAccount/organization-role.ts]
      ([isRoleAtLeast], [isRoleAtMost]),
    - [libs/utils/src/lib/auth/org-validator.ts] ([OrgValidator]),
    - [libs/utils/src/lib/shared/utils.ts] ([isObjectIdsEquals]),
    - [apps/auth/src/user/user.service.ts] ([inviteUserToOrganization]),
    - [apps/data-upload/src/calculatedImpact/calculatedImpact.service.ts]
      ([sumEmissions], [getEmissionsByCategory], [aggregateImpacts],
      [isCalculationCompleteForDataSources]).

    JavaScript values that may be [null] or [undefined] are kept apart from
    defined ones, exceptions are an explicit error result, and JavaScript
    numbers are IEEE 754 binary64 floats. *)

From Stdlib Require Import Bool List String Ascii ZArith NArith Lia Permutation.
From Stdlib Require Import Floats.PrimFloat.
Import ListNotations.

Local Open Scope string_scope.
Local Open Scope Z_scope.

(* ================================================================== *)
(** ** JavaScript values and exceptions *)

(** A value of TypeScript type [A | null | undefined]. *)
Inductive Nullable (A : Type) : Type :=
| JsNull
| JsUndefined
| JsVal (a : A).
Arguments JsNull {A}.
Arguments JsUndefined {A}.
Arguments JsVal {A} a.

(** Optional chaining [x?.f]: [undefined] when [x] is nullish. *)
Definition optChain {A B : Type} (x : Nullable A) (f : A -> Nullable B) : Nullable B :=
  match x with
  | JsVal a => f a
  | _ => JsUndefined
  end.

(** Nullish coalescing [x ?? d]. *)
Definition nullish {A : Type} (x : Nullable A) (d : A) : A :=
  match x with
  | JsVal a => a
  | _ => d
  end.

(** The exceptions the modelled code throws (the NestJS HTTP exceptions and
    the runtime's [TypeError]), each with its message. *)
Inductive Exception : Type :=
| BadRequestException (msg : string)
| ForbiddenException (msg : string)
| InternalServerErrorException (msg : string)
| TypeError (msg : string)
| ExternalError (msg : string).

(** The result of a call that either throws or returns. *)
Inductive Result (A : Type) : Type :=
| Throw (e : Exception)
| Return (a : A).
Arguments Throw {A} e.
Arguments Return {A} a.

Definition bind {A B : Type} (m : Result A) (k : A -> Result B) : Result B :=
  match m with
  | Throw e => Throw e
  | Return a => k a
  end.

Notation "x <- m ;; k" := (bind m (fun x => k))
  (at level 61, m at next level, right associativity).
Notation "m ;;; k" := (bind m (fun _ => k))
  (at level 61, right associativity).

Definition isForbidden {A : Type} (r : Result A) : bool :=
  match r with
  | Throw (ForbiddenException _) => true
  | _ => false
  end.

(* ================================================================== *)
(** ** organization-role.ts *)

Module OrganizationRole.

Inductive t : Type := GUEST | USER | ADMIN | SUPER_ADMIN.

(** The string value of each enum member. *)
Definition value (r : t) : string :=
  match r with
  | GUEST => "guest"
  | USER => "user"
  | ADMIN => "admin"
  | SUPER_ADMIN => "superAdmin"
  end.

Definition eqb (a b : t) : bool :=
  match a, b with
  | GUEST, GUEST | USER, USER | ADMIN, ADMIN | SUPER_ADMIN, SUPER_ADMIN => true
  | _, _ => false
  end.

Definition all : list t := [GUEST; USER; ADMIN; SUPER_ADMIN].

End OrganizationRole.
Abbreviation OrganizationRole := OrganizationRole.t.

(** [ORGANIZATION_ROLE_ORDER]. *)
Definition ORGANIZATION_ROLE_ORDER (r : OrganizationRole) : Z :=
  match r with
  | OrganizationRole.GUEST => 0
  | OrganizationRole.USER => 1
  | OrganizationRole.ADMIN => 2
  | OrganizationRole.SUPER_ADMIN => 3
  end.

(** [isRoleAtLeast(role, wantRole)]: a nullish [role] counts as index [-1],
    a nullish [wantRole] as index [99]. *)
Definition isRoleAtLeast (role wantRole : Nullable OrganizationRole) : bool :=
  let haveRoleIdx :=
    match role with JsVal r => ORGANIZATION_ROLE_ORDER r | _ => -1 end in
  let wantRoleIdx :=
    match wantRole with JsVal w => ORGANIZATION_ROLE_ORDER w | _ => 99 end in
  haveRoleIdx >=? wantRoleIdx.

(** [isRoleAtMost(role, atMost)]. *)
Definition isRoleAtMost (role atMost : Nullable OrganizationRole) : bool :=
  isRoleAtLeast atMost role.

(** Rendering of a possibly absent role inside a template string. *)
Definition showRole (r : Nullable OrganizationRole) : string :=
  match r with
  | JsNull => "null"
  | JsUndefined => "undefined"
  | JsVal a => OrganizationRole.value a
  end.

(* ================================================================== *)
(** ** Documents: users, members, organizations *)

(** A Mongo [ObjectId], identified by its hexadecimal string; [equals]
    compares identifiers. *)
Module ObjectId.
Record t : Type := mk { hex : string }.
Definition equals (a b : t) : bool := String.eqb (hex a) (hex b).
End ObjectId.

(** Modelled from the spec: the enum [UserRoles] (user-roles.ts) is not among
    the sources. The site-level role is compared only against the site admin
    role [UserRoles.ADMIN]; [USER] is the default of the user schema and
    [OTHER] stands for any further member. *)
Module UserRoles.
Inductive t : Type := ADMIN | USER | OTHER (name : string).
(** Strict equality [a === b] of two enum values. *)
Definition eqb (a b : t) : bool :=
  match a, b with
  | ADMIN, ADMIN => true
  | USER, USER => true
  | OTHER x, OTHER y => String.eqb x y
  | _, _ => false
  end.
End UserRoles.

Module UserDocument.
Record t : Type := mk {
  _id : ObjectId.t;
  role : UserRoles.t;
  name : string;
  email : string;
}.
End UserDocument.

(** [AuthenticatedUser]: what authentication attaches to the request. *)
Module AuthenticatedUser.
Record t : Type := mk { userDoc : UserDocument.t }.
End AuthenticatedUser.

(** [Member], with [user] populated. *)
Module Member.
Record t : Type := mk {
  user : UserDocument.t;
  role : OrganizationRole;
}.
End Member.

(** Modelled from the spec: the enum [OrganizationAccountType]
    (organizationAccount.interface.ts) is not among the sources; its members
    [STARTER] and [PREMIUM] are the ones the sources use. *)
Module OrganizationAccountType.
Inductive t : Type := STARTER | PREMIUM.
Definition eqb (a b : t) : bool :=
  match a, b with
  | STARTER, STARTER | PREMIUM, PREMIUM => true
  | _, _ => false
  end.
Definition value (a : t) : string :=
  match a with STARTER => "starter" | PREMIUM => "premium" end.
End OrganizationAccountType.

(** [members] is declared [Member[]], never absent: the optional chaining
    [members?.find] of [checkMember] always takes the list. *)
Module OrganizationAccount.
Record t : Type := mk {
  id : ObjectId.t;
  accountType : Nullable OrganizationAccountType.t;
  members : list Member.t;
}.
End OrganizationAccount.

(** [Array.prototype.find]: the first element satisfying the predicate, or
    [undefined]. *)
Fixpoint arrayFind {A : Type} (p : A -> bool) (l : list A) : Nullable A :=
  match l with
  | [] => JsUndefined
  | x :: rest => if p x then JsVal x else arrayFind p rest
  end.

(* ================================================================== *)
(** ** org-validator.ts *)

Module OrgValidator.

Record t : Type := mk { org : OrganizationAccount.t }.

(** [checkType(requiredAccountType)]. *)
Definition checkType (this : t)
    (requiredAccountType : OrganizationAccountType.t) : Result t :=
  match OrganizationAccount.accountType (org this) with
  | JsVal a =>
      if OrganizationAccountType.eqb a requiredAccountType then Return this
      else Throw (ForbiddenException
             ("Organization Account must be of type "
                ++ OrganizationAccountType.value requiredAccountType ++ "."))
  | _ => Throw (ForbiddenException
             ("Organization Account must be of type "
                ++ OrganizationAccountType.value requiredAccountType ++ "."))
  end.

(** The membership entry [checkMember] looks up. *)
Definition membershipOf (this : t) (user : AuthenticatedUser.t) : Nullable Member.t :=
  arrayFind
    (fun m => ObjectId.equals (UserDocument._id (Member.user m))
                (UserDocument._id (AuthenticatedUser.userDoc user)))
    (OrganizationAccount.members (org this)).

(** [checkMember(user, minRole)]. *)
Definition checkMember (this : t) (user : AuthenticatedUser.t)
    (minRole : OrganizationRole) : Result t :=
  let membership := membershipOf this user in
  if negb (isRoleAtLeast (optChain membership (fun m => JsVal (Member.role m)))
             (JsVal minRole))
  then Throw (ForbiddenException
         ("User must be at least " ++ OrganizationRole.value minRole
            ++ " in the organization."))
  else Return this.

End OrgValidator.

(* ================================================================== *)
(** ** shared/utils.ts: isObjectIdsEquals *)

(** What the arguments of [isObjectIdsEquals] can be at run time: [null],
    [undefined], a string, an [ObjectId], or (outside the declared type) a
    non-string value that has no [equals] method. *)
Inductive IdValue : Type :=
| IdNull
| IdUndefined
| IdString (s : string)
| IdObjectId (o : ObjectId.t)
| IdNoEquals.

(** JavaScript truthiness of an [IdValue]: the empty string is falsy, every
    object is truthy. *)
Definition idTruthy (v : IdValue) : bool :=
  match v with
  | IdNull | IdUndefined => false
  | IdString s => negb (String.eqb s "")
  | IdObjectId _ | IdNoEquals => true
  end.

Definition typeofIsString (v : IdValue) : bool :=
  match v with IdString _ => true | _ => false end.

(** Truthiness of the property [v.equals] of a truthy non-string [v]. *)
Definition hasEquals (v : IdValue) : bool :=
  match v with IdObjectId _ => true | _ => false end.

(** A missing or malformed identifier: [null], [undefined], or a non-string
    value without an [equals] method. *)
Definition malformedId (v : IdValue) : bool :=
  match v with
  | IdNull | IdUndefined | IdNoEquals => true
  | IdString _ | IdObjectId _ => false
  end.

Section IsObjectIdsEquals.

(** The driver's [ObjectId.prototype.equals], a boolean method that accepts
    any argument. *)
Variable bsonEquals : ObjectId.t -> IdValue -> bool.

(** The call [v.equals(arg)]: a [TypeError] when [v] is nullish or has no
    such method. *)
Definition callEquals (v arg : IdValue) : Result bool :=
  match v with
  | IdObjectId o => Return (bsonEquals o arg)
  | IdNull | IdUndefined =>
      Throw (TypeError "Cannot read properties of null or undefined")
  | IdString _ | IdNoEquals =>
      Throw (TypeError "equals is not a function")
  end.

Definition isObjectIdsEquals (value other : IdValue) : Result bool :=
  if negb (idTruthy value)
     || (negb (typeofIsString value) && negb (hasEquals value))
     || negb (idTruthy other)
     || (negb (typeofIsString other) && negb (hasEquals other))
  then Return false
  else
    match value with
    | IdString v =>
        match other with
        | IdString o => Return (String.eqb v o)
        | _ => callEquals other value
        end
    | _ => callEquals value other
    end.

End IsObjectIdsEquals.

(* ================================================================== *)
(** ** user.service.ts: inviteUserToOrganization *)

(** The [userData] argument. The declared type of [role] is
    [OrganizationRole]; the function still tests it for falsiness. *)
Module UserData.
Record t : Type := mk {
  name : string;
  email : string;
  locale : string;
  role : Nullable OrganizationRole;
}.
End UserData.

(** JavaScript [!s] for a string. *)
Definition strFalsy (s : string) : bool := String.eqb s "".

Definition dquote : string := String (ascii_of_nat 34) EmptyString.

Definition MSG_PROPERTIES_REQUIRED : string :=
  "Properties " ++ dquote ++ "name" ++ dquote ++ ", " ++ dquote ++ "email"
    ++ dquote ++ " and " ++ dquote ++ "role" ++ dquote ++ " must be specified".

Definition MSG_ALREADY_MEMBER : string :=
  "User with specified email is already organization member".

Definition msgEscalation (inviterRoleInOrg : Nullable OrganizationRole)
    (role : OrganizationRole) : string :=
  "A user can only invite another use to the organization with the same or lower role. The requester had role "
    ++ showRole inviterRoleInOrg ++ " and invited the new user to have role "
    ++ OrganizationRole.value role ++ ".".

(** The inviter's role in the organization: the role of the first member
    whose user id equals the inviter's, [undefined] if there is none. *)
Definition inviterRoleInOrg (organization : OrganizationAccount.t)
    (invitedByUser : UserDocument.t) : Nullable OrganizationRole :=
  optChain
    (arrayFind
       (fun m => ObjectId.equals (UserDocument._id (Member.user m))
                   (UserDocument._id invitedByUser))
       (OrganizationAccount.members organization))
    (fun m => JsVal (Member.role m)).

(** The block commented "Check for privilege escalation". *)
Definition checkPrivilegeEscalation (role : OrganizationRole)
    (organization : OrganizationAccount.t) (invitedByUser : UserDocument.t)
    : Result unit :=
  if negb (UserRoles.eqb (UserDocument.role invitedByUser) UserRoles.ADMIN) then
    let inviterRole := inviterRoleInOrg organization invitedByUser in
    if negb (isRoleAtMost (JsVal role) inviterRole)
    then Throw (ForbiddenException (msgEscalation inviterRole role))
    else Return tt
  else Return tt.

Section UserService.

(** Collaborators: [userModel.findOne({ email })], [inviteNonLocalUser]
    (Auth0 and e-mail), and [organization.save()]. *)
Variable findOneByEmail : string -> Nullable UserDocument.t.
Variable inviteNonLocalUser : string -> string -> string -> Result UserDocument.t.
Variable save : OrganizationAccount.t -> Result OrganizationAccount.t.

(** The function from the membership test to its end: reject an e-mail
    that is already a member, resolve the invited user, push the new
    member, save, and return the added member. *)
Definition addInvitedMember (name email locale : string)
    (role : OrganizationRole) (organization : OrganizationAccount.t)
    : Result Member.t :=
  let isMember :=
    arrayFind
      (fun currentMember =>
         String.eqb (UserDocument.email (Member.user currentMember)) email)
      (OrganizationAccount.members organization) in
  match isMember with
  | JsVal _ => Throw (BadRequestException MSG_ALREADY_MEMBER)
  | _ =>
      invitedUser <-
        match findOneByEmail email with
        | JsVal localUser => Return localUser
        | _ => inviteNonLocalUser name email locale
        end ;;
      let member := Member.mk invitedUser role in
      let pushed :=
        OrganizationAccount.mk
          (OrganizationAccount.id organization)
          (OrganizationAccount.accountType organization)
          (OrganizationAccount.members organization ++ [member]) in
      updatedOrganization <- save pushed ;;
      match
        arrayFind
          (fun currentMember =>
             ObjectId.equals (UserDocument._id (Member.user currentMember))
               (UserDocument._id invitedUser))
          (OrganizationAccount.members updatedOrganization)
      with
      | JsVal addedMember =>
          Return (Member.mk
                    (UserDocument.mk (UserDocument._id invitedUser)
                       (UserDocument.role invitedUser)
                       (UserDocument.name invitedUser)
                       (UserDocument.email invitedUser))
                    (Member.role addedMember))
      | _ =>
          Throw (InternalServerErrorException
                   ("Adding member " ++ email ++ " to "
                      ++ ObjectId.hex (OrganizationAccount.id organization)
                      ++ " failed unexpectedly."))
      end
  end.

(** [inviteUserToOrganization(userData, organization, invitedByUser)]. *)
Definition inviteUserToOrganization (userData : UserData.t)
    (organization : OrganizationAccount.t) (invitedByUser : UserDocument.t)
    : Result Member.t :=
  let name := UserData.name userData in
  let email := UserData.email userData in
  let locale := UserData.locale userData in
  match UserData.role userData with
  | JsVal role =>
      if strFalsy name || strFalsy email
      then Throw (BadRequestException MSG_PROPERTIES_REQUIRED)
      else
        checkPrivilegeEscalation role organization invitedByUser ;;;
        addInvitedMember name email locale role organization
  | _ => Throw (BadRequestException MSG_PROPERTIES_REQUIRED)
  end.

End UserService.

(* ================================================================== *)
(** ** calculatedImpact.service.ts: completion of data sources *)

Module DataSource.
Record t : Type := mk {
  _id : ObjectId.t;
  status : string;
}.
End DataSource.

(** The reasons of the promises that reject, and the values of those that
    fulfil, in the order of the array. *)
Fixpoint rejections {A : Type} (ps : list (Result A)) : list Exception :=
  match ps with
  | [] => []
  | Throw e :: rest => e :: rejections rest
  | Return _ :: rest => rejections rest
  end.

Fixpoint fulfilled {A : Type} (ps : list (Result A)) : list A :=
  match ps with
  | [] => []
  | Throw _ :: rest => fulfilled rest
  | Return a :: rest => a :: fulfilled rest
  end.

(** [Promise.all]: the values in the order of the array when every promise
    fulfils; otherwise it rejects with the reason of the promise that rejects
    first in time. Which one that is the array does not tell: [settlesFirst]
    gives its position among the rejections. *)
Definition promiseAll {A : Type} (settlesFirst : list Exception -> nat)
    (ps : list (Result A)) : Result (list A) :=
  match rejections ps with
  | [] => Return (fulfilled ps)
  | e :: others => Throw (nth (settlesFirst (e :: others)) (e :: others) e)
  end.

(** The predicate given to [every]. *)
Definition isTerminalStatus (dataSource : DataSource.t) : bool :=
  String.eqb (DataSource.status dataSource) "succeeded"
  || String.eqb (DataSource.status dataSource) "failed".

Section CalculationComplete.

(** Which of several failing lookups fails first. *)
Variable settlesFirst : list Exception -> nat.

(** [normativeServerService.getDataSource(authToken, id)]. *)
Variable getDataSource : string -> ObjectId.t -> Result DataSource.t.

Definition isCalculationCompleteForDataSources (authToken : string)
    (dataSourceIds : list ObjectId.t) : Result bool :=
  let dataSourceGets := map (fun id => getDataSource authToken id) dataSourceIds in
  dataSources <- promiseAll settlesFirst dataSourceGets ;;
  Return (forallb isTerminalStatus dataSources).

End CalculationComplete.

(* ================================================================== *)
(** ** calculatedImpact.schema.ts and impact.model.ts

    The records are parameterised by the type [num] of numbers; the service
    runs them at JavaScript numbers ([float], below). *)

Module Activity.
Record t : Type := mk {
  category : Nullable string;
  ghgScope : Nullable string;
}.
End Activity.

Module Impact.
Record t (num : Type) : Type := mk { value : Nullable num }.
Arguments mk {num} value.
Arguments value {num} _.
End Impact.

Module CalculatedImpact.
Record t (num : Type) : Type := mk {
  activity : Nullable Activity.t;
  impacts : Nullable (Impact.t num);
}.
Arguments mk {num} activity impacts.
Arguments activity {num} _.
Arguments impacts {num} _.
End CalculatedImpact.

Module Emission.
Record t (num : Type) : Type := mk { unit : string; value : num }.
Arguments mk {num} unit value.
Arguments unit {num} _.
Arguments value {num} _.
End Emission.

Module EmissionsByCategory.
Record t (num : Type) : Type := mk {
  category : string;
  emission : Emission.t num;
}.
Arguments mk {num} category emission.
Arguments category {num} _.
Arguments emission {num} _.
End EmissionsByCategory.

Module EmissionsByScope.
Record t (num : Type) : Type := mk {
  scope : string;
  emission : Emission.t num;
  categoryBreakdown : list (EmissionsByCategory.t num);
}.
Arguments mk {num} scope emission categoryBreakdown.
Arguments scope {num} _.
Arguments emission {num} _.
Arguments categoryBreakdown {num} _.
End EmissionsByScope.

Module EmissionCalculation.
Record t (num : Type) : Type := mk {
  totalEmissions : Emission.t num;
  emissionsByScope : list (EmissionsByScope.t num);
}.
Arguments mk {num} totalEmissions emissionsByScope.
Arguments totalEmissions {num} _.
Arguments emissionsByScope {num} _.
End EmissionCalculation.

Definition CO2KGS : string := "co2 kg".

(* ================================================================== *)
(** ** lodash [groupBy] and [Object.entries]

    The object [groupBy] builds is kept as the list of its properties in
    creation order; [objectEntries] then lists them in the order of
    [OrdinaryOwnPropertyKeys]: array-index keys first, ascending, then the
    other keys in creation order. *)

Section GroupBy.
Context {A : Type}.

(** [result[key].push(value)] if [key] is there, else [result[key] = [value]]. *)
Fixpoint addToGroup (key : string) (x : A) (groups : list (string * list A))
    : list (string * list A) :=
  match groups with
  | [] => [(key, [x])]
  | (k, g) :: rest =>
      if String.eqb k key then (k, (g ++ [x])%list) :: rest
      else (k, g) :: addToGroup key x rest
  end.

Definition groupBy (l : list A) (iteratee : A -> string) : list (string * list A) :=
  fold_left (fun result x => addToGroup (iteratee x) x result) l [].

(** The elements of key [k], in input order. *)
Definition groupOf (iteratee : A -> string) (k : string) (l : list A) : list A :=
  filter (fun x => String.eqb (iteratee x) k) l.

End GroupBy.

Local Open Scope N_scope.

Definition isDigit (c : ascii) : bool :=
  let n := N_of_ascii c in (48 <=? n) && (n <=? 57).

Fixpoint digitsValue (s : string) (acc : N) : option N :=
  match s with
  | EmptyString => Some acc
  | String c rest =>
      if isDigit c then digitsValue rest (acc * 10 + (N_of_ascii c - 48))
      else None
  end.

(** The array index a property key denotes, if any: the key is the canonical
    decimal form of an integer below [2^32 - 1]. *)
Definition arrayIndex (key : string) : option N :=
  match key with
  | EmptyString => None
  | String c rest =>
      if Ascii.eqb c "0"%char then
        match rest with EmptyString => Some 0 | _ => None end
      else
        match digitsValue key 0 with
        | Some n => if n <? 4294967295 then Some n else None
        | None => None
        end
  end.

Section ObjectEntries.
Context {V : Type}.

Fixpoint insertByIndex (e : N * (string * V)) (l : list (N * (string * V)))
    : list (N * (string * V)) :=
  match l with
  | [] => [e]
  | h :: t => if fst e <=? fst h then e :: l else h :: insertByIndex e t
  end.

Definition sortByIndex (l : list (N * (string * V))) : list (N * (string * V)) :=
  fold_right insertByIndex [] l.

Definition indexKeyed (props : list (string * V)) : list (N * (string * V)) :=
  flat_map
    (fun p => match arrayIndex (fst p) with Some n => [(n, p)] | None => [] end)
    props.

Definition stringKeyed (props : list (string * V)) : list (string * V) :=
  filter
    (fun p => match arrayIndex (fst p) with Some _ => false | None => true end)
    props.

Definition objectEntries (props : list (string * V)) : list (string * V) :=
  (map snd (sortByIndex (indexKeyed props)) ++ stringKeyed props)%list.

End ObjectEntries.

Local Close Scope N_scope.

(* ================================================================== *)
(** ** calculatedImpact.service.ts: aggregation *)

Section Aggregation.

(** Numbers, their addition [a + b] and the literal [0]. *)
Context {num : Type}.
Variable add : num -> num -> num.
Variable zero : num.

(** [xs.reduce((a, b) => a + b, 0)]. *)
Definition reduceAdd (xs : list num) : num :=
  fold_left (fun a b => add a b) xs zero.

(** [i.impacts?.value ?? 0]. *)
Definition impactValue (i : CalculatedImpact.t num) : num :=
  nullish (optChain (CalculatedImpact.impacts i) Impact.value) zero.

(** [x.activity?.category ?? 'unknown']. *)
Definition categoryKey (x : CalculatedImpact.t num) : string :=
  nullish (optChain (CalculatedImpact.activity x) Activity.category) "unknown".

(** [x.activity?.ghgScope ?? 'unknown']. *)
Definition scopeKey (x : CalculatedImpact.t num) : string :=
  nullish (optChain (CalculatedImpact.activity x) Activity.ghgScope) "unknown".

Definition sumEmissions (impacts : list (CalculatedImpact.t num)) : num :=
  reduceAdd (map impactValue impacts).

Definition getEmissionsByCategory (impacts : list (CalculatedImpact.t num))
    : list (EmissionsByCategory.t num) :=
  let impactsByCategory := groupBy impacts categoryKey in
  map
    (fun '(category, impactsForCategory) =>
       EmissionsByCategory.mk category
         (Emission.mk CO2KGS (sumEmissions impactsForCategory)))
    (objectEntries impactsByCategory).

Definition aggregateImpacts (calculatedImpacts : list (CalculatedImpact.t num))
    : EmissionCalculation.t num :=
  let calculatedImpactsByScope := groupBy calculatedImpacts scopeKey in
  let emissionsByScope :=
    map
      (fun '(scope, impactsForScope) =>
         EmissionsByScope.mk scope
           (Emission.mk CO2KGS (sumEmissions impactsForScope))
           (getEmissionsByCategory impactsForScope))
      (objectEntries calculatedImpactsByScope) in
  EmissionCalculation.mk
    {| Emission.value :=
         reduceAdd
           (map (fun e => Emission.value (EmissionsByScope.emission e))
              emissionsByScope);
       Emission.unit := CO2KGS |}
    emissionsByScope.

(** The sum of the category values of a scope entry, as the service sums. *)
Definition sumOfCategories (e : EmissionsByScope.t num) : num :=
  reduceAdd
    (map (fun c => Emission.value (EmissionsByCategory.emission c))
       (EmissionsByScope.categoryBreakdown e)).

(** The sum of the scope values of a summary, as the service sums. *)
Definition sumOfScopes (s : EmissionCalculation.t num) : num :=
  reduceAdd
    (map (fun e => Emission.value (EmissionsByScope.emission e))
       (EmissionCalculation.emissionsByScope s)).

Definition totalValue (s : EmissionCalculation.t num) : num :=
  Emission.value (EmissionCalculation.totalEmissions s).

(** Whether [i.impacts?.value] is null or undefined. *)
Definition valueAbsent (i : CalculatedImpact.t num) : bool :=
  match optChain (CalculatedImpact.impacts i) Impact.value with
  | JsVal _ => false
  | _ => true
  end.

(** The record [i] with its impact value set to [v]. *)
Definition withValue (i : CalculatedImpact.t num) (v : num)
    : CalculatedImpact.t num :=
  CalculatedImpact.mk (CalculatedImpact.activity i)
    (JsVal (Impact.mk (JsVal v))).

End Aggregation.

(** JavaScript numbers: IEEE 754 binary64, with [+] and the literal [0]. *)
Definition JsNumber : Type := float.

Definition jsSumEmissions : list (CalculatedImpact.t JsNumber) -> JsNumber :=
  sumEmissions PrimFloat.add 0%float.

Definition jsAggregateImpacts
  : list (CalculatedImpact.t JsNumber) -> EmissionCalculation.t JsNumber :=
  aggregateImpacts PrimFloat.add 0%float.

(** A record with the given scope, category and value. *)
Definition impactRecord {num : Type} (scope category : string) (v : num)
    : CalculatedImpact.t num :=
  CalculatedImpact.mk
    (JsVal (Activity.mk (JsVal category) (JsVal scope)))
    (JsVal (Impact.mk (JsVal v))).


(* ================================================================== *)
(** ** Values on which addition does not round

    Doubles add exactly as long as the operands and the sum are multiples of
    one quantum and small enough: integers are the plainest case. A grid
    [grid k] (the double for [k] quanta) with such exact additions up to a
    bound is what the statements about sums without rounding are made for. *)

Definition mapNullable {A B : Type} (f : A -> B) (x : Nullable A) : Nullable B :=
  match x with
  | JsNull => JsNull
  | JsUndefined => JsUndefined
  | JsVal a => JsVal (f a)
  end.

(** The record with its value, if it has one, mapped by [f]. *)
Definition onValue {A B : Type} (f : A -> B) (r : CalculatedImpact.t A)
    : CalculatedImpact.t B :=
  CalculatedImpact.mk (CalculatedImpact.activity r)
    (mapNullable (fun i => Impact.mk (mapNullable f (Impact.value i)))
       (CalculatedImpact.impacts r)).

Definition absSum (ks : list Z) : Z :=
  fold_right (fun k acc => Z.abs k + acc) 0 ks.

(** The sum of the magnitudes of the values of integer-valued records. *)
Definition magnitude (l : list (CalculatedImpact.t Z)) : Z :=
  absSum (map (impactValue 0) l).

(** Doubles [grid k] whose additions are exact while operands and sum stay
    within [bound] quanta. *)
Definition exactGrid (grid : Z -> JsNumber) (bound : Z) : Prop :=
  grid 0 = 0%float
  /\ forall a b : Z,
       Z.abs a <= bound -> Z.abs b <= bound -> Z.abs (a + b) <= bound ->
       PrimFloat.add (grid a) (grid b) = grid (a + b).

(** The double of an integer, built from its binary digits. *)
Fixpoint ofPositive (p : positive) : JsNumber :=
  match p with
  | xH => 1%float
  | xO q => (2 * ofPositive q)%float
  | xI q => (2 * ofPositive q + 1)%float
  end.

Definition ofInteger (k : Z) : JsNumber :=
  match k with
  | Z0 => 0%float
  | Zpos p => ofPositive p
  | Zneg p => (- ofPositive p)%float
  end.

(** The double of [k] quarters. *)
Definition ofQuarters (k : Z) : JsNumber := (ofInteger k * 0.25)%float.

(** The integers from [-bound] to [bound], and for one of them, [a], those
    whose sum with [a] is within the bound as well. *)
Definition zrange (bound : Z) : list Z :=
  map (fun n => Z.of_nat n - bound) (seq 0 (Z.to_nat (2 * bound + 1))).

Definition partners (bound a : Z) : list Z :=
  filter (fun b => Z.abs (a + b) <=? bound) (zrange bound).

(* ================================================================== *)
(** ** Exceptions of the other services

    The authorization and organization services also throw
    [UnauthorizedException], [NotFoundException] and plain [Error]s. *)

Inductive Thrown : Type :=
| UnauthorizedException (msg : string)
| NotFoundException (msg : string)
| JsError (msg : string)
| Http (e : Exception).

Inductive Outcome (A : Type) : Type :=
| Raise (e : Thrown)
| Value (a : A).
Arguments Raise {A} e.
Arguments Value {A} a.

(** A call into code whose exceptions are those of [Result]. *)
Definition ofResult {A : Type} (r : Result A) : Outcome A :=
  match r with
  | Throw e => Raise (Http e)
  | Return a => Value a
  end.

Definition andThen {A B : Type} (m : Outcome A) (k : A -> Outcome B) : Outcome B :=
  match m with
  | Raise e => Raise e
  | Value a => k a
  end.

(* ================================================================== *)
(** ** authz.service.ts *)

(** The request, as far as authorization reads it. *)
Module Request.
Record t : Type := mk { user : Nullable AuthenticatedUser.t }.
End Request.

Module AuthzService.

Section WithModel.

(** [organizationAccountModel.findById(orgId).populate('members.user')]. *)
Variable findById : ObjectId.t -> Nullable OrganizationAccount.t.

Definition loadOrganizationWithMembers (orgId : ObjectId.t)
    : Outcome OrganizationAccount.t :=
  match findById orgId with
  | JsVal organization => Value organization
  | _ => Raise (NotFoundException "Organization not found")
  end.

End WithModel.

Definition checkSiteRoleAdmin (req : Request.t) : Outcome unit :=
  match Request.user req with
  | JsVal user =>
      if negb (UserRoles.eqb (UserDocument.role (AuthenticatedUser.userDoc user))
                 UserRoles.ADMIN)
      then Raise (Http (ForbiddenException "Forbidden"))
      else Value tt
  | _ => Raise (UnauthorizedException "User not authenticated")
  end.

Definition checkSiteRoleAdminOrOrgRole (req : Request.t)
    (org : OrganizationAccount.t) (orgRoleRequired : OrganizationRole)
    : Outcome unit :=
  match Request.user req with
  | JsVal user =>
      if UserRoles.eqb (UserDocument.role (AuthenticatedUser.userDoc user))
           UserRoles.ADMIN
      then Value tt
      else
        andThen
          (ofResult (OrgValidator.checkMember (OrgValidator.mk org) user
                       orgRoleRequired))
          (fun _ => Value tt)
  | _ => Raise (UnauthorizedException "User not authenticated")
  end.

End AuthzService.

(* ================================================================== *)
(** ** starter.authz.service.ts *)

Module StarterAuthzService.

Section WithModel.

(** [organizationAccountModel.findById(orgId)]. *)
Variable findById : ObjectId.t -> Nullable OrganizationAccount.t.

Definition checkUserIsAdminOnStarterOrg (req : Request.t) (orgId : ObjectId.t)
    : Outcome (AuthenticatedUser.t * OrganizationAccount.t) :=
  match Request.user req with
  | JsVal user =>
      match findById orgId with
      | JsVal org =>
          andThen
            (ofResult
               (v <- OrgValidator.checkType (OrgValidator.mk org)
                       OrganizationAccountType.STARTER ;;
                OrgValidator.checkMember v user OrganizationRole.ADMIN))
            (fun _ => Value (user, org))
      | _ =>
          Raise (Http (ForbiddenException
                         ("Organization " ++ ObjectId.hex orgId ++ " not allowed.")))
      end
  | _ => Raise (UnauthorizedException "User not authenticated")
  end.

End WithModel.

End StarterAuthzService.

(* ================================================================== *)
(** ** organizationAccount.service.ts *)

(** Modelled from the spec: the enum [OrganizationModules]
    (organization-modules.enum.ts) is not among the sources; these are the
    members the sources use, [OTHER] stands for any further one. *)
Module OrganizationModules.
Inductive t : Type :=
| STARTER | DATA_SOURCES | IMPACT_MODEL | REPORTING | SUPPLIERS
| TRANSACTIONS | ANALYTICS | ACCOUNTING | OTHER (name : string).
(** Strict equality [a === b] of two enum values. *)
Definition eqb (a b : t) : bool :=
  match a, b with
  | STARTER, STARTER | DATA_SOURCES, DATA_SOURCES | IMPACT_MODEL, IMPACT_MODEL
  | REPORTING, REPORTING | SUPPLIERS, SUPPLIERS | TRANSACTIONS, TRANSACTIONS
  | ANALYTICS, ANALYTICS | ACCOUNTING, ACCOUNTING => true
  | OTHER x, OTHER y => String.eqb x y
  | _, _ => false
  end.
End OrganizationModules.

(** [ImpactCalculationModels] (calculation-options.ts), by value. *)
Module ImpactCalculationModels.
Definition V1_UNSPSC : string := "v1-unspsc".
Definition V1_5_UNSPSC_SCOPE12 : string := "v1.5-unspsc-scope1&2".
Definition V1_6 : string := "v1.6".
Definition V2_NORMID : string := "v2-normid".
End ImpactCalculationModels.

Module OrganizationAccountModule.
Record t : Type := mk {
  name : OrganizationModules.t;
  submodules : list string;
}.
End OrganizationAccountModule.

(** An organization document with the further fields this service reads. *)
Module OrganizationAccountDocument.
Record t : Type := mk {
  account : OrganizationAccount.t;
  name : string;
  modules : list OrganizationAccountModule.t;
}.
Definition members (d : t) : list Member.t :=
  OrganizationAccount.members (account d).
(** The document with its [members] array replaced. *)
Definition withMembers (d : t) (ms : list Member.t) : t :=
  mk (OrganizationAccount.mk (OrganizationAccount.id (account d))
        (OrganizationAccount.accountType (account d)) ms)
     (name d) (modules d).
End OrganizationAccountDocument.

(** The index of the first element satisfying [p] ([length l] if none): the
    index [_.indexOf] gives for the element [_.find] returned. *)
Fixpoint indexOfFirst {A : Type} (p : A -> bool) (l : list A) : nat :=
  match l with
  | [] => 0%nat
  | x :: rest => if p x then 0%nat else S (indexOfFirst p rest)
  end.

(** [members[index].role = role]. *)
Fixpoint setRoleAt (index : nat) (role : OrganizationRole) (members : list Member.t)
    : list Member.t :=
  match members, index with
  | [], _ => []
  | m :: rest, O => Member.mk (Member.user m) role :: rest
  | m :: rest, S i => m :: setRoleAt i role rest
  end.

Module OrganizationAccountService.

Definition defaultModules : list OrganizationAccountModule.t :=
  [ OrganizationAccountModule.mk OrganizationModules.DATA_SOURCES ["EDIT SOURCE"];
    OrganizationAccountModule.mk OrganizationModules.SUPPLIERS [];
    OrganizationAccountModule.mk OrganizationModules.TRANSACTIONS [];
    OrganizationAccountModule.mk OrganizationModules.ANALYTICS ["POWER BI"];
    OrganizationAccountModule.mk OrganizationModules.IMPACT_MODEL
      [ImpactCalculationModels.V1_6] ].

(** [hasAdminMember(organizationAccount, user)]; the promise always resolves. *)
Definition hasAdminMember (organizationAccount : OrganizationAccountDocument.t)
    (user : ObjectId.t) : bool :=
  existsb
    (fun member =>
       ObjectId.equals (UserDocument._id (Member.user member)) user
       && (OrganizationRole.eqb (Member.role member) OrganizationRole.SUPER_ADMIN
           || OrganizationRole.eqb (Member.role member) OrganizationRole.ADMIN))
    (OrganizationAccountDocument.members organizationAccount).

Definition allowedRoles : list OrganizationRole :=
  [OrganizationRole.ADMIN; OrganizationRole.GUEST; OrganizationRole.USER].

(** The members after [_.remove(members, (m) => m.user._id.equals(userId))]. *)
Definition withoutUser (userId : ObjectId.t) (members : list Member.t)
    : list Member.t :=
  filter
    (fun m => negb (ObjectId.equals (UserDocument._id (Member.user m)) userId))
    members.

(** [for] loop of [addDefaultModules], one default module at a time. *)
Definition addDefaultModule (modules : list OrganizationAccountModule.t)
    (defaultModule : OrganizationAccountModule.t)
    : list OrganizationAccountModule.t :=
  if negb (existsb
             (fun module =>
                OrganizationModules.eqb (OrganizationAccountModule.name module)
                  (OrganizationAccountModule.name defaultModule))
             modules)
  then (modules ++ [defaultModule])%list
  else modules.

Section WithDefaults.

(** The field [this.defaultModules]. *)
Variable theDefaultModules : list OrganizationAccountModule.t.

Definition addDefaultModulesOf (modules : list OrganizationAccountModule.t)
    : list OrganizationAccountModule.t :=
  fold_left addDefaultModule theDefaultModules modules.

End WithDefaults.

Definition addDefaultModules : list OrganizationAccountModule.t
    -> list OrganizationAccountModule.t :=
  addDefaultModulesOf defaultModules.

(** [getImpactCalculationModelByOrg]: the first submodule of the first
    module named IMPACT_MODEL. *)
Definition getImpactCalculationModelByOrg
    (organizationAccount : OrganizationAccountDocument.t) : Outcome string :=
  let impactModelModule :=
    arrayFind
      (fun module =>
         OrganizationModules.eqb (OrganizationAccountModule.name module)
           OrganizationModules.IMPACT_MODEL)
      (OrganizationAccountDocument.modules organizationAccount) in
  let impactModels :=
    optChain impactModelModule
      (fun m => JsVal (OrganizationAccountModule.submodules m)) in
  let firstImpactModel :=
    optChain impactModels
      (fun ms => match ms with [] => JsUndefined | x :: _ => JsVal x end) in
  match firstImpactModel with
  | JsVal model =>
      if strFalsy model
      then Raise (JsError "No impact model defined for this organization")
      else Value model
  | _ => Raise (JsError "No impact model defined for this organization")
  end.

Section WithModel.

(** [organization.save()]. *)
Variable save : OrganizationAccountDocument.t -> Outcome OrganizationAccountDocument.t.

(** [updateUsersOrganizationRole(organization, userId, role)]; the
    [lastUpdated] stamp is not among the modelled fields. *)
Definition updateUsersOrganizationRole
    (organization : OrganizationAccountDocument.t) (userId : ObjectId.t)
    (role : Nullable OrganizationRole) : Outcome OrganizationAccountDocument.t :=
  match role with
  | JsVal role' =>
      if negb (existsb (OrganizationRole.eqb role') allowedRoles)
      then Raise (Http (ForbiddenException
                          ("Role not allowed: " ++ OrganizationRole.value role')))
      else
        let isUser m :=
          ObjectId.equals (UserDocument._id (Member.user m)) userId in
        match arrayFind isUser (OrganizationAccountDocument.members organization) with
        | JsVal member =>
            let index :=
              indexOfFirst isUser (OrganizationAccountDocument.members organization) in
            save (OrganizationAccountDocument.withMembers organization
                    (setRoleAt index role'
                       (OrganizationAccountDocument.members organization)))
        | _ =>
            Raise (NotFoundException
                     ("User " ++ ObjectId.hex userId
                        ++ " is not a member in organization "
                        ++ OrganizationAccountDocument.name organization ++ "."))
        end
  | _ => Raise (Http (BadRequestException "Role must be provided"))
  end.

(** [removeUserFromOrganization(organization, userId)]. *)
Definition removeUserFromOrganization
    (organization : OrganizationAccountDocument.t) (userId : ObjectId.t)
    : Outcome OrganizationAccountDocument.t :=
  save (OrganizationAccountDocument.withMembers organization
          (withoutUser userId (OrganizationAccountDocument.members organization))).

End WithModel.

End OrganizationAccountService.

(* ================================================================== *)
(** ** parse-objectid.pipe.ts *)

(** A value of type [unknown], as far as [parseObjectId] tells values apart:
    an [ObjectId] instance, a string, or anything else. Anything else is
    known by what happens when a template string renders it: a text, or an
    exception (a [TypeError] for a symbol or an object without usable
    [toString]); rendering it a second time may end differently. *)
Inductive Unknown : Type :=
| UObjectId (o : ObjectId.t)
| UString (s : string)
| UOther (shown shownAgain : Result string).

(** [`${value}`], the first and the second time. *)
Definition renderUnknown (v : Unknown) : Result string :=
  match v with
  | UObjectId o => Return (ObjectId.hex o)
  | UString s => Return s
  | UOther shown _ => shown
  end.

Definition renderUnknownAgain (v : Unknown) : Result string :=
  match v with
  | UObjectId o => Return (ObjectId.hex o)
  | UString s => Return s
  | UOther _ shownAgain => shownAgain
  end.

(** [ArgumentMetadata]: where the argument comes from, the declared type of
    the handler's parameter, and the name given to the decorator. *)
Inductive Paramtype : Type := PBody | PQuery | PParam | PCustom.

Definition showParamtype (p : Paramtype) : string :=
  match p with
  | PBody => "body" | PQuery => "query" | PParam => "param" | PCustom => "custom"
  end.

Inductive Metatype : Type :=
| MObjectId
| MObject
| MOtherType (name : Nullable string).

Module ArgumentMetadata.
Record t : Type := mk {
  type : Paramtype;
  metatype : Nullable Metatype;
  data : Nullable string;
}.
End ArgumentMetadata.

Section ParseObjectId.

(** [new Types.ObjectId(value)] for a string [value]; it may throw. *)
Variable newObjectId : string -> Result ObjectId.t.

(** [parseObjectId(value)]; the length of a string is its number of
    characters. The message of the exception renders the value, which may
    itself throw. *)
Definition parseObjectId (value : Unknown) : Result ObjectId.t :=
  let invalid :=
    text <- renderUnknown value ;;
    Throw (BadRequestException ("value " ++ text ++ " is not a valid ID")) in
  match value with
  | UObjectId o => Return o
  | UString s =>
      if Nat.eqb (String.length s) 24 then
        match newObjectId s with
        | Return o => Return o
        | Throw _ => invalid
        end
      else invalid
  | UOther _ _ => invalid
  end.

(** [ParseObjectIdPipe.transform(value, metadata)]. Whatever
    [parseObjectId] throws is caught; the message of the new exception
    renders the value once more. *)
Definition transform (value : Unknown) (metadata : ArgumentMetadata.t)
    : Result ObjectId.t :=
  let metatype := nullish (ArgumentMetadata.metatype metadata) MObjectId in
  match metatype with
  | MOtherType name =>
      let metaname := nullish name "unknown" in
      Throw (InternalServerErrorException
               ("Invalid parameter type annotation. "
                  ++ showParamtype (ArgumentMetadata.type metadata) ++ ":"
                  ++ nullish (ArgumentMetadata.data metadata) "unknown"
                  ++ ", metatype " ++ metaname))
  | _ =>
      match parseObjectId value with
      | Return o => Return o
      | Throw _ =>
          let isParamOrQuery :=
            match ArgumentMetadata.type metadata with
            | PQuery | PParam => true
            | _ => false
            end in
          let paramName :=
            match ArgumentMetadata.data metadata with
            | JsVal d => if isParamOrQuery && negb (strFalsy d) then d else "unknown"
            | _ => "unknown"
            end in
          text <- renderUnknownAgain value ;;
          Throw (BadRequestException
                   ("Parameter " ++ paramName ++ " with value "
                      ++ text ++ " is not a valid ID."))
      end
  end.

End ParseObjectId.

(* ================================================================== *)
(** ** Sample data *)

Module Sample.

Definition oid (s : string) : ObjectId.t := ObjectId.mk s.

Definition siteAdmin : UserDocument.t :=
  UserDocument.mk (oid "5d492ebfcaa0a917504481d0") UserRoles.ADMIN
    "Site Admin" "site-admin@email.com".
Definition orgAdmin : UserDocument.t :=
  UserDocument.mk (oid "5d492ebfcaa0a917504481d1") UserRoles.USER
    "Org Admin" "org-admin@email.com".
Definition orgUser : UserDocument.t :=
  UserDocument.mk (oid "5d492ebfcaa0a917504481d2") UserRoles.USER
    "Org User" "org-user@email.com".
Definition orgGuest : UserDocument.t :=
  UserDocument.mk (oid "5d492ebfcaa0a917504481d3") UserRoles.USER
    "Org Guest" "org-guest@email.com".
Definition outsider : UserDocument.t :=
  UserDocument.mk (oid "5d492ebfcaa0a917504481d4") UserRoles.USER
    "Outsider" "outsider@email.com".

Definition org : OrganizationAccount.t :=
  OrganizationAccount.mk (oid "5d441dbcf78735de4e25e973")
    (JsVal OrganizationAccountType.PREMIUM)
    [ Member.mk orgAdmin OrganizationRole.ADMIN;
      Member.mk orgUser OrganizationRole.USER;
      Member.mk orgGuest OrganizationRole.GUEST ].

Definition newUserData (role : OrganizationRole) : UserData.t :=
  UserData.mk "New User" "new-user@email.com" "en" (JsVal role).

(** Collaborators of an empty user collection whose calls all succeed. *)
Definition findNobody : string -> Nullable UserDocument.t :=
  fun _ => JsUndefined.
Definition inviteOk : string -> string -> string -> Result UserDocument.t :=
  fun name email _ =>
    Return (UserDocument.mk (oid "5d492ebfcaa0a917504481d9") UserRoles.USER
              name email).
Definition saveOk : OrganizationAccount.t -> Result OrganizationAccount.t :=
  fun o => Return o.

(** A status service that knows three data sources. *)
Definition getDataSource (_ : string) (id : ObjectId.t) : Result DataSource.t :=
  if String.eqb (ObjectId.hex id) "a" then Return (DataSource.mk id "succeeded")
  else if String.eqb (ObjectId.hex id) "b" then Return (DataSource.mk id "failed")
  else if String.eqb (ObjectId.hex id) "c" then Return (DataSource.mk id "pending")
  else Throw (ExternalError "Not Found").

(** Of several failing lookups, the first of the list fails first. *)
Definition settlesFirst : list Exception -> nat := fun _ => 0%nat.

(** Three records of one scope whose values cancel only in one order. *)
Definition cancelling : list (CalculatedImpact.t JsNumber) :=
  [ impactRecord "Scope 1" "c1" 1e16%float;
    impactRecord "Scope 1" "c2" 1%float;
    impactRecord "Scope 1" "c1" (-1e16)%float ].

Definition cancellingShuffled : list (CalculatedImpact.t JsNumber) :=
  [ impactRecord "Scope 1" "c1" 1e16%float;
    impactRecord "Scope 1" "c1" (-1e16)%float;
    impactRecord "Scope 1" "c2" 1%float ].

(** The records of the example scenario, over exact integers. *)
Definition scenario : list (CalculatedImpact.t Z) :=
  [ impactRecord "Scope 1" "c1" 10;
    impactRecord "Scope 1" "c2" 20;
    impactRecord "Scope 2" "c3" 5 ].

Definition scenarioShuffled : list (CalculatedImpact.t Z) :=
  [ impactRecord "Scope 1" "c2" 20;
    impactRecord "Scope 1" "c1" 10;
    impactRecord "Scope 2" "c3" 5 ].

(** A record without [impacts], and one whose [impacts] has no [value]. *)
Definition noImpacts : CalculatedImpact.t JsNumber :=
  CalculatedImpact.mk
    (JsVal (Activity.mk (JsVal "c1") (JsVal "Scope 1"))) JsUndefined.
Definition noValue : CalculatedImpact.t JsNumber :=
  CalculatedImpact.mk JsUndefined (JsVal (Impact.mk JsUndefined)).

End Sample.

(** Further sample data: requests, organization documents, lookups. *)
Module Fixture.

Definition requestOf (u : UserDocument.t) : Request.t :=
  Request.mk (JsVal (AuthenticatedUser.mk u)).

Definition anonymous : Request.t := Request.mk JsUndefined.

Definition starterOrg : OrganizationAccount.t :=
  OrganizationAccount.mk (Sample.oid "5d441dbcf78735de4e25e974")
    (JsVal OrganizationAccountType.STARTER)
    [ Member.mk Sample.orgAdmin OrganizationRole.ADMIN;
      Member.mk Sample.orgUser OrganizationRole.USER ].

(** A collection holding [Sample.org] and [starterOrg]. *)
Definition findById (id : ObjectId.t) : Nullable OrganizationAccount.t :=
  if ObjectId.equals id (OrganizationAccount.id Sample.org) then JsVal Sample.org
  else if ObjectId.equals id (OrganizationAccount.id starterOrg) then JsVal starterOrg
  else JsNull.

Definition orgDocument : OrganizationAccountDocument.t :=
  OrganizationAccountDocument.mk Sample.org "Sample Org"
    [ OrganizationAccountModule.mk OrganizationModules.ACCOUNTING [] ].

Definition saveDocument (d : OrganizationAccountDocument.t)
    : Outcome OrganizationAccountDocument.t := Value d.

(** A driver constructor accepting exactly strings of hexadecimal digits. *)
Definition isHexDigit (c : ascii) : bool :=
  let n := N_of_ascii c in
  ((48 <=? n) && (n <=? 57) || (97 <=? n) && (n <=? 102)
   || (65 <=? n) && (n <=? 70))%N.

Fixpoint allHex (s : string) : bool :=
  match s with
  | EmptyString => true
  | String c rest => isHexDigit c && allHex rest
  end.

Definition newObjectId (s : string) : Result ObjectId.t :=
  if allHex s then Return (ObjectId.mk s)
  else Throw (TypeError "Argument passed in must be a string of 24 hex characters").

End Fixture.

(* ================================================================== *)
(** * Properties *)

(** ** Role order *)

Lemma ORGANIZATION_ROLE_ORDER_range (r : OrganizationRole) :
  0 <= ORGANIZATION_ROLE_ORDER r <= 3.
Proof. destruct r; simpl; lia. Qed.

Lemma isRoleAtLeast_defined (h w : OrganizationRole) :
  isRoleAtLeast (JsVal h) (JsVal w)
  = (ORGANIZATION_ROLE_ORDER h >=? ORGANIZATION_ROLE_ORDER w).
Proof. reflexivity. Qed.

Lemma isRoleAtLeast_nullish_want (have want : Nullable OrganizationRole) :
  want = JsNull \/ want = JsUndefined -> isRoleAtLeast have want = false.
Proof.
  intros [-> | ->]; destruct have as [| |h]; try reflexivity;
    destruct h; reflexivity.
Qed.

Lemma isRoleAtLeast_nullish_have (have want : Nullable OrganizationRole) :
  have = JsNull \/ have = JsUndefined -> isRoleAtLeast have want = false.
Proof.
  intros [-> | ->]; destruct want as [| |w]; try reflexivity;
    destruct w; reflexivity.
Qed.

(** C2. [isRoleAtLeast] is a total boolean function (it has no error result);
    it is true exactly when both arguments are defined roles and the rank of
    [have] is at least the rank of [want], with ranks GUEST = 0, USER = 1,
    ADMIN = 2, SUPER_ADMIN = 3; it is false for every [have] when [want] is
    null or undefined, and false for every [want] when [have] is null or
    undefined. *)
Theorem isRoleAtLeast_spec :
  (ORGANIZATION_ROLE_ORDER OrganizationRole.GUEST = 0
   /\ ORGANIZATION_ROLE_ORDER OrganizationRole.USER = 1
   /\ ORGANIZATION_ROLE_ORDER OrganizationRole.ADMIN = 2
   /\ ORGANIZATION_ROLE_ORDER OrganizationRole.SUPER_ADMIN = 3)
  /\ forall have want : Nullable OrganizationRole,
      (isRoleAtLeast have want = true <->
       exists h w, have = JsVal h /\ want = JsVal w
                   /\ ORGANIZATION_ROLE_ORDER h >= ORGANIZATION_ROLE_ORDER w)
      /\ isRoleAtLeast have JsNull = false
      /\ isRoleAtLeast have JsUndefined = false
      /\ isRoleAtLeast JsNull want = false
      /\ isRoleAtLeast JsUndefined want = false.
Proof.
  split; [repeat split |].
  intros have want. split; [| repeat split].
  - split.
    + intros H. destruct have as [| |h].
      * rewrite isRoleAtLeast_nullish_have in H by auto. discriminate.
      * rewrite isRoleAtLeast_nullish_have in H by auto. discriminate.
      * destruct want as [| |w].
        -- rewrite isRoleAtLeast_nullish_want in H by auto. discriminate.
        -- rewrite isRoleAtLeast_nullish_want in H by auto. discriminate.
        -- exists h, w. repeat split.
           rewrite isRoleAtLeast_defined, Z.geb_leb in H.
           apply Z.leb_le in H. lia.
    + intros (h & w & -> & -> & H).
      rewrite isRoleAtLeast_defined, Z.geb_leb. apply Z.leb_le. lia.
  - apply isRoleAtLeast_nullish_want; auto.
  - apply isRoleAtLeast_nullish_want; auto.
  - apply isRoleAtLeast_nullish_have; auto.
  - apply isRoleAtLeast_nullish_have; auto.
Qed.

(** C3, as the specification states it, fails: a defined role does not
    satisfy an undefined requirement. *)
Lemma isRoleAtLeast_undefined_want_counterexample :
  ~ (forall r : OrganizationRole,
       isRoleAtLeast JsUndefined (JsVal r) = false
       /\ isRoleAtLeast (JsVal r) JsUndefined = true).
Proof.
  intros H. destruct (H OrganizationRole.GUEST) as [_ H']. discriminate H'.
Qed.

(** C3, amended. [isRoleAtLeast(undefined, r)] is false for every defined
    role [r], and [isRoleAtLeast(r, undefined)] is false as well: an absent
    requirement ranks above every role, so both directions fail alike (and
    the same holds for null). *)
Theorem isRoleAtLeast_undefined_both_false :
  forall r : OrganizationRole,
    isRoleAtLeast JsUndefined (JsVal r) = false
    /\ isRoleAtLeast (JsVal r) JsUndefined = false
    /\ isRoleAtLeast JsNull (JsVal r) = false
    /\ isRoleAtLeast (JsVal r) JsNull = false.
Proof. intros r; destruct r; repeat split. Qed.

(** ** Array search *)

Section ArrayFind.
Context {A : Type} (p : A -> bool).

Lemma arrayFind_some (l : list A) (x : A) :
  arrayFind p l = JsVal x -> In x l /\ p x = true.
Proof.
  induction l as [|y l IH]; simpl; [discriminate |].
  destruct (p y) eqn:Hy.
  - intros [= ->]. auto.
  - intros H. destruct (IH H). auto.
Qed.

Lemma arrayFind_none (l : list A) :
  arrayFind p l = JsUndefined <-> forall x, In x l -> p x = false.
Proof.
  induction l as [|y l IH]; simpl.
  - split; [intros _ x [] | reflexivity].
  - destruct (p y) eqn:Hy.
    + split; [discriminate |]. intros H.
      rewrite (H y) in Hy by auto. discriminate.
    + rewrite IH. split.
      * intros H x [<- | Hx]; auto.
      * intros H x Hx. apply H. auto.
Qed.

Lemma arrayFind_not_null (l : list A) : arrayFind p l <> JsNull.
Proof.
  induction l as [|y l IH]; simpl; [discriminate |].
  destruct (p y); [discriminate | exact IH].
Qed.

Lemma arrayFind_exists (l : list A) (x : A) :
  In x l -> p x = true -> exists y, arrayFind p l = JsVal y.
Proof.
  intros Hin Hp. destruct (arrayFind p l) as [| |y] eqn:E.
  - destruct (arrayFind_not_null _ E).
  - rewrite (proj1 (arrayFind_none l) E x Hin) in Hp. discriminate.
  - eauto.
Qed.

End ArrayFind.

(** ** OrgValidator *)

(** C7. [checkMember(user, minRole)] throws [ForbiddenException] when no
    entry of the membership list has the user's id, whatever [minRole] is;
    when there is a matching entry, with [membership] the one found, it
    throws [ForbiddenException] iff [isRoleAtLeast(membership.role, minRole)]
    is false, and otherwise returns the validator itself. *)
Theorem checkMember_spec :
  forall (this : OrgValidator.t) (user : AuthenticatedUser.t)
         (minRole : OrganizationRole),
    let members := OrganizationAccount.members (OrgValidator.org this) in
    let matches m :=
      ObjectId.equals (UserDocument._id (Member.user m))
        (UserDocument._id (AuthenticatedUser.userDoc user)) in
    ((forall m, In m members -> matches m = false) ->
       isForbidden (OrgValidator.checkMember this user minRole) = true)
    /\ ((exists m, In m members /\ matches m = true) ->
          exists membership,
            OrgValidator.membershipOf this user = JsVal membership)
    /\ (forall membership,
          OrgValidator.membershipOf this user = JsVal membership ->
          In membership members /\ matches membership = true
          /\ (isForbidden (OrgValidator.checkMember this user minRole) = true
               <-> isRoleAtLeast (JsVal (Member.role membership))
                     (JsVal minRole) = false)
          /\ (isRoleAtLeast (JsVal (Member.role membership))
                 (JsVal minRole) = true ->
               OrgValidator.checkMember this user minRole = Return this)).
Proof.
  intros this user minRole members matches. repeat split.
  - intros Hnone. apply arrayFind_none in Hnone.
    unfold OrgValidator.checkMember, OrgValidator.membershipOf.
    fold members. fold matches. rewrite Hnone. simpl.
    destruct minRole; reflexivity.
  - intros (m & Hin & Hm). eapply arrayFind_exists; eauto.
  - apply arrayFind_some in H. apply H.
  - apply arrayFind_some in H. apply H.
  - unfold OrgValidator.checkMember. rewrite H. simpl.
    destruct (isRoleAtLeast _ _); simpl; congruence.
  - unfold OrgValidator.checkMember. rewrite H. simpl.
    destruct (isRoleAtLeast _ _); simpl; congruence.
  - intros Hrole. unfold OrgValidator.checkMember. rewrite H. simpl.
    rewrite Hrole. reflexivity.
Qed.

(** A guest member is refused the USER level, a user member obtains it, and
    a user outside the organization is refused even the GUEST level. *)
Example checkMember_samples :
  let v := OrgValidator.mk Sample.org in
  isForbidden (OrgValidator.checkMember v
                 (AuthenticatedUser.mk Sample.orgGuest) OrganizationRole.USER) = true
  /\ OrgValidator.checkMember v
       (AuthenticatedUser.mk Sample.orgUser) OrganizationRole.USER = Return v
  /\ isForbidden (OrgValidator.checkMember v
                    (AuthenticatedUser.mk Sample.outsider) OrganizationRole.GUEST) = true.
Proof. repeat split. Qed.

(** ** isObjectIdsEquals *)

(** C9. Whatever combination of string, [ObjectId], null, undefined (or even
    a value without [equals]) it is given, [isObjectIdsEquals] returns a
    boolean and never throws; it returns false whenever either argument is
    null, undefined or malformed. *)
Theorem isObjectIdsEquals_never_throws :
  forall (bsonEquals : ObjectId.t -> IdValue -> bool) (value other : IdValue),
    (exists b, isObjectIdsEquals bsonEquals value other = Return b)
    /\ (malformedId value || malformedId other = true ->
         isObjectIdsEquals bsonEquals value other = Return false).
Proof.
  intros eq value other. split.
  - destruct value as [| |v|v|], other as [| |o|o|];
      unfold isObjectIdsEquals; simpl;
      try destruct (String.eqb v ""); try destruct (String.eqb o "");
      simpl; eauto.
  - destruct value as [| |v|v|], other as [| |o|o|];
      unfold isObjectIdsEquals; simpl; try discriminate;
      try destruct (String.eqb v ""); try destruct (String.eqb o "");
      simpl; auto.
Qed.

(** The cases of the unit test, with the driver comparing hexadecimal forms. *)
Example isObjectIdsEquals_samples :
  let eq o v :=
    match v with
    | IdString s => String.eqb (ObjectId.hex o) s
    | IdObjectId o' => ObjectId.equals o o'
    | _ => false
    end in
  let s1 := "5d492ebfcaa0a917504481df" in
  let s2 := "5d441dbcf78735de4e25e973" in
  isObjectIdsEquals eq (IdString s1) (IdObjectId (ObjectId.mk s1)) = Return true
  /\ isObjectIdsEquals eq (IdObjectId (ObjectId.mk s1)) (IdString s2) = Return false
  /\ isObjectIdsEquals eq (IdString "") (IdString s1) = Return false
  /\ isObjectIdsEquals eq IdNull (IdString s1) = Return false
  /\ isObjectIdsEquals eq IdUndefined (IdString s1) = Return false.
Proof. repeat split. Qed.

(** ** Invitation and privilege escalation *)

Lemma strFalsy_false (s : string) : s <> "" -> strFalsy s = false.
Proof. intros H. apply String.eqb_neq. exact H. Qed.

Lemma checkPrivilegeEscalation_admin role organization invitedByUser :
  UserDocument.role invitedByUser = UserRoles.ADMIN ->
  checkPrivilegeEscalation role organization invitedByUser = Return tt.
Proof. unfold checkPrivilegeEscalation. intros ->. reflexivity. Qed.

Lemma UserRoles_eqb_ADMIN (r : UserRoles.t) :
  r <> UserRoles.ADMIN -> UserRoles.eqb r UserRoles.ADMIN = false.
Proof. destruct r; simpl; congruence. Qed.

Section InviteProperties.

Variable findOneByEmail : string -> Nullable UserDocument.t.
Variable inviteNonLocalUser : string -> string -> string -> Result UserDocument.t.
Variable save : OrganizationAccount.t -> Result OrganizationAccount.t.

Let invite := inviteUserToOrganization findOneByEmail inviteNonLocalUser save.
Let proceed := addInvitedMember findOneByEmail inviteNonLocalUser save.

(** C1, amended. For an invitation that carries a name and an e-mail, with
    requested role [r]: when the inviter is not a site admin, the call throws
    [ForbiddenException] unless [isRoleAtMost(r, inviterRoleInOrg)] holds,
    where [inviterRoleInOrg] is the inviter's role in the membership list
    (undefined for a non-member), and when that holds the call goes on to
    add the member; when the inviter is a site admin the check is skipped
    and the call goes on to add the member whatever [r] is. *)
Theorem inviteUserToOrganization_escalation :
  forall (name email locale : string) (r : OrganizationRole)
         (organization : OrganizationAccount.t) (invitedByUser : UserDocument.t),
    name <> "" -> email <> "" ->
    let userData := UserData.mk name email locale (JsVal r) in
    let inviterRole := inviterRoleInOrg organization invitedByUser in
    (UserDocument.role invitedByUser <> UserRoles.ADMIN ->
       (isRoleAtMost (JsVal r) inviterRole = false ->
          invite userData organization invitedByUser
          = Throw (ForbiddenException (msgEscalation inviterRole r)))
       /\ (isRoleAtMost (JsVal r) inviterRole = true ->
          invite userData organization invitedByUser
          = proceed name email locale r organization))
    /\ (UserDocument.role invitedByUser = UserRoles.ADMIN ->
          invite userData organization invitedByUser
          = proceed name email locale r organization).
Proof.
  intros name email locale r organization invitedByUser Hname Hemail
    userData inviterRole.
  unfold invite, inviteUserToOrganization, userData. simpl.
  rewrite (strFalsy_false _ Hname), (strFalsy_false _ Hemail). simpl.
  split.
  - intros Hsite. unfold checkPrivilegeEscalation.
    rewrite (UserRoles_eqb_ADMIN _ Hsite). simpl. fold inviterRole.
    split; intros ->; reflexivity.
  - intros Hsite. rewrite checkPrivilegeEscalation_admin by exact Hsite.
    reflexivity.
Qed.

End InviteProperties.

(** C1, as the specification states it, fails: the request is validated
    before the escalation check, so the organization's USER member inviting
    an ADMIN under an empty name gets [BadRequestException], not
    [ForbiddenException]. *)
Lemma inviteUserToOrganization_escalation_counterexample :
  ~ (forall (userData : UserData.t) (r : OrganizationRole)
            (organization : OrganizationAccount.t) (invitedByUser : UserDocument.t),
       UserData.role userData = JsVal r ->
       UserDocument.role invitedByUser <> UserRoles.ADMIN ->
       isRoleAtMost (JsVal r) (inviterRoleInOrg organization invitedByUser) = false ->
       isForbidden
         (inviteUserToOrganization Sample.findNobody Sample.inviteOk
            Sample.saveOk userData organization invitedByUser) = true).
Proof.
  intros H.
  specialize
    (H (UserData.mk "" "new-user@email.com" "en" (JsVal OrganizationRole.ADMIN))
       OrganizationRole.ADMIN Sample.org Sample.orgUser eq_refl).
  assert (Hbad :
    inviteUserToOrganization Sample.findNobody Sample.inviteOk Sample.saveOk
      (UserData.mk "" "new-user@email.com" "en" (JsVal OrganizationRole.ADMIN))
      Sample.org Sample.orgUser
    = Throw (BadRequestException MSG_PROPERTIES_REQUIRED)) by reflexivity.
  rewrite Hbad in H. simpl in H.
  assert (Hf : false = true); [apply H; [discriminate | reflexivity] |].
  discriminate Hf.
Qed.

(** The escalation scenario: the organization's USER member may not invite an
    ADMIN, and the same invitation by a site admin adds the member. *)
Lemma inviteUserToOrganization_escalation_witness :
  let invite :=
    inviteUserToOrganization Sample.findNobody Sample.inviteOk Sample.saveOk in
  isForbidden
    (invite (Sample.newUserData OrganizationRole.ADMIN) Sample.org Sample.orgUser)
  = true
  /\ invite (Sample.newUserData OrganizationRole.ADMIN) Sample.org Sample.siteAdmin
     = Return
         (Member.mk
            (UserDocument.mk (Sample.oid "5d492ebfcaa0a917504481d9")
               UserRoles.USER "New User" "new-user@email.com")
            OrganizationRole.ADMIN).
Proof.
  pose proof
    (inviteUserToOrganization_escalation Sample.findNobody Sample.inviteOk
       Sample.saveOk "New User" "new-user@email.com" "en" OrganizationRole.ADMIN
       Sample.org) as H.
  split.
  - destruct (H Sample.orgUser) as [Hu _]; [discriminate | discriminate |].
    destruct Hu as [Hf _]; [discriminate |].
    unfold Sample.newUserData. rewrite Hf; [reflexivity | reflexivity].
  - destruct (H Sample.siteAdmin) as [_ Ha]; [discriminate | discriminate |].
    unfold Sample.newUserData. rewrite Ha; reflexivity.
Defined.

(** The table of the unit test: whoever is not a site admin may invite at
    most at their own level. *)
Example inviteUserToOrganization_table :
  let allowed inviter role :=
    negb (isForbidden
            (inviteUserToOrganization Sample.findNobody Sample.inviteOk
               Sample.saveOk (Sample.newUserData role) Sample.org inviter)) in
  map (allowed Sample.orgAdmin) OrganizationRole.all = [true; true; true; false]
  /\ map (allowed Sample.orgUser) OrganizationRole.all = [true; true; false; false]
  /\ map (allowed Sample.orgGuest) OrganizationRole.all = [true; false; false; false]
  /\ map (allowed Sample.outsider) OrganizationRole.all = [false; false; false; false]
  /\ map (allowed Sample.siteAdmin) OrganizationRole.all = [true; true; true; true].
Proof. repeat split. Qed.

(** ** Completion of data sources *)

Section CompleteProperties.

Variable settlesFirst : list Exception -> nat.
Variable getDataSource : string -> ObjectId.t -> Result DataSource.t.
Variable authToken : string.

Lemma lookups_resolved (ids : list ObjectId.t) :
  (forall id, In id ids -> exists d, getDataSource authToken id = Return d) ->
  rejections (map (fun id => getDataSource authToken id) ids) = []
  /\ Forall2 (fun id d => getDataSource authToken id = Return d) ids
       (fulfilled (map (fun id => getDataSource authToken id) ids)).
Proof.
  induction ids as [|id ids IH]; intros Hall; simpl.
  - split; [reflexivity | constructor].
  - destruct (Hall id) as [d Hd]; [left; reflexivity |].
    destruct IH as (Hnone & HF); [intros; apply Hall; right; assumption |].
    rewrite Hd. split; [exact Hnone |]. constructor; assumption.
Qed.

Lemma promiseAll_resolved (ids : list ObjectId.t) :
  (forall id, In id ids -> exists d, getDataSource authToken id = Return d) ->
  exists ds,
    promiseAll settlesFirst (map (fun id => getDataSource authToken id) ids)
    = Return ds
    /\ Forall2 (fun id d => getDataSource authToken id = Return d) ids ds.
Proof.
  intros Hall. destruct (lookups_resolved ids Hall) as [Hnone HF].
  eexists. unfold promiseAll. rewrite Hnone. split; [reflexivity | exact HF].
Qed.

Lemma isTerminalStatus_iff (d : DataSource.t) :
  isTerminalStatus d = true
  <-> DataSource.status d = "succeeded" \/ DataSource.status d = "failed".
Proof.
  unfold isTerminalStatus. rewrite orb_true_iff, !String.eqb_eq. tauto.
Qed.

(** C5. [isCalculationCompleteForDataSources] returns true on the empty
    list; when every lookup answers, it returns a boolean that is true iff
    the status looked up for every id is "succeeded" or "failed", so that
    any other status for any id makes it false. *)
Theorem isCalculationCompleteForDataSources_spec :
  forall ids : list ObjectId.t,
    isCalculationCompleteForDataSources settlesFirst getDataSource authToken []
    = Return true
    /\ ((forall id, In id ids ->
           exists d, getDataSource authToken id = Return d) ->
        exists b,
          isCalculationCompleteForDataSources settlesFirst getDataSource
            authToken ids
          = Return b
          /\ (b = true <->
              forall id d, In id ids ->
                getDataSource authToken id = Return d ->
                DataSource.status d = "succeeded"
                \/ DataSource.status d = "failed")).
Proof.
  intros ids. split; [reflexivity |]. intros Hall.
  destruct (promiseAll_resolved ids Hall) as (ds & Hds & HF).
  exists (forallb isTerminalStatus ds). split.
  - unfold isCalculationCompleteForDataSources. rewrite Hds. reflexivity.
  - clear Hds Hall. induction HF as [|id d ids ds Hd HF IH]; simpl.
    + split; [intros _ id d [] | reflexivity].
    + rewrite andb_true_iff, IH, isTerminalStatus_iff. split.
      * intros [Hterm Hrest] id' d' [<- | Hin] Hget.
        -- rewrite Hd in Hget. injection Hget as <-. exact Hterm.
        -- eapply Hrest; eassumption.
      * intros H. split.
        -- apply (H id d); [left; reflexivity | exact Hd].
        -- intros id' d' Hin Hget. apply (H id' d'); [right |]; assumption.
Qed.

End CompleteProperties.

(** Statuses succeeded, failed, succeeded are complete; succeeded, pending
    are not. *)
Lemma isCalculationCompleteForDataSources_witness :
  let ids := [Sample.oid "a"; Sample.oid "b"; Sample.oid "a"] in
  exists b,
    isCalculationCompleteForDataSources Sample.settlesFirst
      Sample.getDataSource "auth_token" ids
    = Return b
    /\ (b = true <->
        forall id d, In id ids ->
          Sample.getDataSource "auth_token" id = Return d ->
          DataSource.status d = "succeeded" \/ DataSource.status d = "failed").
Proof.
  apply (proj2 (isCalculationCompleteForDataSources_spec Sample.settlesFirst
                  Sample.getDataSource "auth_token"
                  [Sample.oid "a"; Sample.oid "b"; Sample.oid "a"])).
  intros id [<- | [<- | [<- | []]]]; eexists; reflexivity.
Defined.

Example isCalculationCompleteForDataSources_samples :
  let isComplete :=
    isCalculationCompleteForDataSources Sample.settlesFirst Sample.getDataSource
      "auth_token" in
  isComplete [Sample.oid "a"; Sample.oid "b"; Sample.oid "a"] = Return true
  /\ isComplete [Sample.oid "a"; Sample.oid "c"] = Return false
  /\ isComplete [] = Return true.
Proof. repeat split. Qed.

(** ** Grouping *)

Section GroupByProperties.
Context {A : Type} (key : A -> string).

Lemma groupBy_snoc (l : list A) (x : A) :
  groupBy (l ++ [x]) key = addToGroup (key x) x (groupBy l key).
Proof. unfold groupBy. rewrite fold_left_app. reflexivity. Qed.

Lemma addToGroup_keys (k : string) (x : A) (groups : list (string * list A)) :
  forall k', In k' (map fst (addToGroup k x groups))
             <-> k' = k \/ In k' (map fst groups).
Proof.
  induction groups as [|[k0 g0] rest IH]; intros k'; simpl.
  - intuition congruence.
  - destruct (String.eqb k0 k) eqn:E; simpl.
    + apply String.eqb_eq in E. subst. intuition congruence.
    + rewrite IH. intuition congruence.
Qed.

Lemma addToGroup_NoDup (k : string) (x : A) (groups : list (string * list A)) :
  NoDup (map fst groups) -> NoDup (map fst (addToGroup k x groups)).
Proof.
  induction groups as [|[k0 g0] rest IH]; simpl; intros Hnd.
  - constructor; [intros [] | constructor].
  - inversion Hnd as [|? ? Hnotin Hrest]; subst.
    destruct (String.eqb k0 k) eqn:E; simpl.
    + constructor; assumption.
    + constructor; [| auto].
      rewrite addToGroup_keys. intros [-> | Hin]; [| contradiction].
      rewrite String.eqb_refl in E. discriminate.
Qed.

(** An entry after adding [x] under [k]: the entry of [k], extended by [x]
    or new, or an untouched entry of another key. *)
Lemma addToGroup_entry (k : string) (x : A) (groups : list (string * list A)) :
  NoDup (map fst groups) ->
  forall k' g', In (k', g') (addToGroup k x groups) ->
    (k' = k /\ ((exists g0, In (k, g0) groups /\ g' = (g0 ++ [x])%list)
                \/ (~ In k (map fst groups) /\ g' = [x])))
    \/ (k' <> k /\ In (k', g') groups).
Proof.
  induction groups as [|[k0 g0] rest IH]; simpl; intros Hnd k' g' Hin.
  - destruct Hin as [[= <- <-] | []]. left. split; [reflexivity |].
    right. split; [tauto | reflexivity].
  - inversion Hnd as [|? ? Hnotin Hrest]; subst.
    destruct (String.eqb k0 k) eqn:E.
    + apply String.eqb_eq in E. subst k0.
      destruct Hin as [[= <- <-] | Hin].
      * left. split; [reflexivity |]. left. exists g0. auto.
      * right. split; [| auto].
        intros ->. apply Hnotin. apply (in_map fst) in Hin. exact Hin.
    + apply String.eqb_neq in E.
      destruct Hin as [[= <- <-] | Hin].
      * right. split; [exact E | auto].
      * destruct (IH Hrest _ _ Hin) as [[-> [(g1 & Hg1 & ->) | [Hno ->]]] | [Hne Hin']].
        -- left. split; [reflexivity |]. left. exists g1. auto.
        -- left. split; [reflexivity |]. right. split; [| reflexivity].
           intros [Heq | Hin']; [congruence | contradiction].
        -- right. auto.
Qed.

Lemma groupOf_snoc (k : string) (l : list A) (x : A) :
  groupOf key k (l ++ [x])
  = (groupOf key k l ++ if String.eqb (key x) k then [x] else [])%list.
Proof. unfold groupOf. rewrite filter_app. reflexivity. Qed.

Lemma groupOf_nil_of_absent (k : string) (l : list A) :
  (forall y, In y l -> key y <> k) -> groupOf key k l = [].
Proof.
  induction l as [|y l IH]; intros H; simpl; [reflexivity |].
  destruct (String.eqb (key y) k) eqn:E.
  - apply String.eqb_eq in E. destruct (H y); auto. left; reflexivity.
  - apply IH. intros z Hz. apply H. right; exact Hz.
Qed.

(** What [groupBy] builds: distinct keys, the key of every record, and
    under each key the records of that key in input order. *)
Lemma groupBy_spec (l : list A) :
  NoDup (map fst (groupBy l key))
  /\ (forall y, In y l -> In (key y) (map fst (groupBy l key)))
  /\ (forall k g, In (k, g) (groupBy l key) -> g = groupOf key k l /\ g <> []).
Proof.
  induction l as [|x l IH] using rev_ind.
  - split; [constructor |]. split; [intros y [] | intros k g []].
  - destruct IH as (Hnd & Hkeys & Hgroups). rewrite groupBy_snoc.
    split; [apply addToGroup_NoDup; exact Hnd |]. split.
    + intros y Hy. rewrite addToGroup_keys.
      apply in_app_or in Hy. destruct Hy as [Hy | [<- | []]]; auto.
    + intros k g Hin. rewrite groupOf_snoc.
      destruct (addToGroup_entry _ _ _ Hnd _ _ Hin)
        as [[-> [(g0 & Hg0 & ->) | [Hno ->]]] | [Hne Hin']].
      * rewrite String.eqb_refl. destruct (Hgroups _ _ Hg0) as [<- _].
        split; [reflexivity |]. destruct g0; discriminate.
      * rewrite String.eqb_refl. rewrite groupOf_nil_of_absent.
        -- split; [reflexivity | discriminate].
        -- intros y Hy Heq. apply Hno. rewrite <- Heq. auto.
      * destruct (String.eqb (key x) k) eqn:E.
        -- apply String.eqb_eq in E. congruence.
        -- rewrite app_nil_r. auto.
Qed.

Lemma groupBy_In (l : list A) (x : A) :
  In x l -> exists g, In (key x, g) (groupBy l key) /\ In x g.
Proof.
  intros Hx. destruct (groupBy_spec l) as (_ & Hkeys & Hgroups).
  specialize (Hkeys x Hx). apply in_map_iff in Hkeys.
  destruct Hkeys as ([k g] & Hk & Hin). simpl in Hk. subst k.
  exists g. split; [exact Hin |].
  destruct (Hgroups _ _ Hin) as [-> _]. unfold groupOf.
  apply filter_In. split; [exact Hx | apply String.eqb_refl].
Qed.

Lemma addToGroup_concat (k : string) (x : A) (groups : list (string * list A)) :
  Permutation (List.concat (map snd (addToGroup k x groups)))
    (List.concat (map snd groups) ++ [x])%list.
Proof.
  induction groups as [|[k0 g0] rest IH]; simpl.
  - reflexivity.
  - destruct (String.eqb k0 k); simpl.
    + rewrite <- !app_assoc. apply Permutation_app_head.
      apply Permutation_app_comm.
    + rewrite IH, app_assoc. reflexivity.
Qed.

(** The groups together hold the input records, each once. *)
Lemma groupBy_concat (l : list A) :
  Permutation (List.concat (map snd (groupBy l key))) l.
Proof.
  induction l as [|x l IH] using rev_ind; [reflexivity |].
  rewrite groupBy_snoc, addToGroup_concat, IH. reflexivity.
Qed.

End GroupByProperties.

(** ** Property order of [Object.entries] *)

Section ObjectEntriesProperties.
Context {V : Type}.

Lemma insertByIndex_perm (e : N * (string * V)) (l : list (N * (string * V))) :
  Permutation (insertByIndex e l) (e :: l).
Proof.
  induction l as [|h t IH]; simpl; [reflexivity |].
  destruct (fst e <=? fst h)%N; [reflexivity |].
  rewrite IH. apply perm_swap.
Qed.

Lemma sortByIndex_perm (l : list (N * (string * V))) :
  Permutation (sortByIndex l) l.
Proof.
  induction l as [|h t IH]; simpl; [reflexivity |].
  rewrite insertByIndex_perm, IH. reflexivity.
Qed.

Lemma index_string_partition (props : list (string * V)) :
  Permutation (map snd (indexKeyed props) ++ stringKeyed props) props.
Proof.
  induction props as [|[k v] rest IH]; simpl; [reflexivity |].
  destruct (arrayIndex k); simpl.
  - rewrite IH. reflexivity.
  - rewrite <- Permutation_middle, IH. reflexivity.
Qed.

(** [Object.entries] lists every property once. *)
Lemma objectEntries_perm (props : list (string * V)) :
  Permutation (objectEntries props) props.
Proof.
  unfold objectEntries.
  rewrite (Permutation_map snd (sortByIndex_perm (indexKeyed props))).
  apply index_string_partition.
Qed.

Lemma objectEntries_In (props : list (string * V)) (e : string * V) :
  In e (objectEntries props) <-> In e props.
Proof.
  split; apply Permutation_in;
    [apply objectEntries_perm | symmetry; apply objectEntries_perm].
Qed.

Lemma objectEntries_single (k : string) (v : V) :
  objectEntries [(k, v)] = [(k, v)].
Proof.
  unfold objectEntries, indexKeyed, stringKeyed. simpl.
  destruct (arrayIndex k); reflexivity.
Qed.

End ObjectEntriesProperties.

Section ObjectEntriesMap.
Context {V W : Type} (h : V -> W).

Let onValue (p : string * V) : string * W := (fst p, h (snd p)).
Let onIndexed (e : N * (string * V)) : N * (string * W) :=
  (fst e, onValue (snd e)).

Lemma insertByIndex_map e l :
  insertByIndex (onIndexed e) (map onIndexed l)
  = map onIndexed (insertByIndex e l).
Proof.
  induction l as [|x t IH]; simpl; [reflexivity |].
  destruct (fst e <=? fst x)%N; simpl; [reflexivity |].
  rewrite IH. reflexivity.
Qed.

Lemma sortByIndex_map l :
  sortByIndex (map onIndexed l) = map onIndexed (sortByIndex l).
Proof.
  induction l as [|x t IH]; [reflexivity |].
  change (sortByIndex (map onIndexed (x :: t)))
    with (insertByIndex (onIndexed x) (sortByIndex (map onIndexed t))).
  rewrite IH. apply insertByIndex_map.
Qed.

(** The order of the entries depends on the keys alone. *)
Lemma objectEntries_map (props : list (string * V)) :
  objectEntries (map (fun p => (fst p, h (snd p))) props)
  = map (fun p => (fst p, h (snd p))) (objectEntries props).
Proof.
  change (fun p : string * V => (fst p, h (snd p))) with onValue.
  unfold objectEntries. rewrite map_app. f_equal.
  - replace (indexKeyed (map onValue props))
      with (map onIndexed (indexKeyed props)).
    + rewrite sortByIndex_map, !map_map. reflexivity.
    + induction props as [|[k v] rest IH]; simpl; [reflexivity |].
      destruct (arrayIndex k); simpl; rewrite IH; reflexivity.
  - induction props as [|[k v] rest IH]; simpl; [reflexivity |].
    destruct (arrayIndex k); simpl; rewrite IH; reflexivity.
Qed.

End ObjectEntriesMap.

Section GroupByMap.
Context {A B : Type} (f : A -> B) (key : B -> string).

Lemma addToGroup_map k x (groups : list (string * list A)) :
  addToGroup k (f x) (map (fun p => (fst p, map f (snd p))) groups)
  = map (fun p => (fst p, map f (snd p))) (addToGroup k x groups).
Proof.
  induction groups as [|[k0 g0] rest IH]; simpl; [reflexivity |].
  destruct (String.eqb k0 k); simpl.
  - rewrite map_app. reflexivity.
  - rewrite IH. reflexivity.
Qed.

(** Grouping the images is grouping by the composed key. *)
Lemma groupBy_map (l : list A) :
  groupBy (map f l) key
  = map (fun p => (fst p, map f (snd p))) (groupBy l (fun x => key (f x))).
Proof.
  induction l as [|x l IH] using rev_ind; [reflexivity |].
  rewrite map_app. change (map f [x]) with [f x].
  rewrite (groupBy_snoc key), (groupBy_snoc (fun x => key (f x))), IH.
  apply addToGroup_map.
Qed.

End GroupByMap.

(** ** Aggregation: structure of the summary *)

Section AggregationStructure.
Context {num : Type} (add : num -> num -> num) (zero : num).

Local Abbreviation sumE := (sumEmissions add zero).
Local Abbreviation byCategory := (getEmissionsByCategory add zero).
Local Abbreviation aggregate := (aggregateImpacts add zero).
Local Abbreviation normalize := (fun x => withValue x (impactValue zero x)).

Lemma total_is_sumOfScopes (l : list (CalculatedImpact.t num)) :
  totalValue (aggregate l) = sumOfScopes add zero (aggregate l).
Proof. reflexivity. Qed.

(** Every scope entry comes from one group of the records. *)
Lemma scope_entry_inv (l : list (CalculatedImpact.t num))
    (e : EmissionsByScope.t num) :
  In e (EmissionCalculation.emissionsByScope (aggregate l)) ->
  exists g,
    In (EmissionsByScope.scope e, g) (groupBy l scopeKey)
    /\ g = groupOf scopeKey (EmissionsByScope.scope e) l
    /\ EmissionsByScope.emission e = Emission.mk CO2KGS (sumE g)
    /\ EmissionsByScope.categoryBreakdown e = byCategory g.
Proof.
  unfold aggregateImpacts. simpl. intros Hin.
  apply in_map_iff in Hin. destruct Hin as ([k g] & <- & Hin).
  apply (proj1 (objectEntries_In _ _)) in Hin. exists g. simpl.
  destruct (groupBy_spec scopeKey l) as (_ & _ & Hgroups).
  destruct (Hgroups _ _ Hin) as [Hg _]. auto.
Qed.

Lemma scope_entry_of_group (l : list (CalculatedImpact.t num)) k g :
  In (k, g) (groupBy l scopeKey) ->
  In (EmissionsByScope.mk k (Emission.mk CO2KGS (sumE g)) (byCategory g))
     (EmissionCalculation.emissionsByScope (aggregate l)).
Proof.
  intros Hin. unfold aggregateImpacts. simpl.
  apply in_map_iff. exists (k, g). split; [reflexivity |].
  apply objectEntries_In. exact Hin.
Qed.

Lemma category_entry_of_group (l : list (CalculatedImpact.t num)) k g :
  In (k, g) (groupBy l categoryKey) ->
  In (EmissionsByCategory.mk k (Emission.mk CO2KGS (sumE g))) (byCategory l).
Proof.
  intros Hin. unfold getEmissionsByCategory.
  apply in_map_iff. exists (k, g). split; [reflexivity |].
  apply objectEntries_In. exact Hin.
Qed.

Lemma impactValue_absent (r : CalculatedImpact.t num) :
  valueAbsent r = true -> impactValue zero r = zero.
Proof.
  unfold valueAbsent, impactValue.
  destruct (optChain _ _); [reflexivity | reflexivity | discriminate].
Qed.

Lemma sumEmissions_normalize (g : list (CalculatedImpact.t num)) :
  sumE (map normalize g) = sumE g.
Proof. unfold sumEmissions. rewrite map_map. reflexivity. Qed.

Lemma getEmissionsByCategory_normalize (g : list (CalculatedImpact.t num)) :
  byCategory (map normalize g) = byCategory g.
Proof.
  unfold getEmissionsByCategory.
  rewrite (groupBy_map normalize categoryKey).
  change (fun x : CalculatedImpact.t num => categoryKey (normalize x))
    with (@categoryKey num).
  rewrite objectEntries_map, map_map.
  apply map_ext. intros [k g']. simpl.
  rewrite sumEmissions_normalize. reflexivity.
Qed.

(** The summary depends on a record only through its activity and the
    value [impacts?.value ?? 0]. *)
Lemma aggregateImpacts_normalize (l : list (CalculatedImpact.t num)) :
  aggregate (map normalize l) = aggregate l.
Proof.
  assert (Hes :
    map (fun '(scope, impactsForScope) =>
           EmissionsByScope.mk scope
             (Emission.mk CO2KGS (sumE impactsForScope))
             (byCategory impactsForScope))
        (objectEntries (groupBy (map normalize l) scopeKey))
    = map (fun '(scope, impactsForScope) =>
             EmissionsByScope.mk scope
               (Emission.mk CO2KGS (sumE impactsForScope))
               (byCategory impactsForScope))
          (objectEntries (groupBy l scopeKey))).
  { rewrite (groupBy_map normalize scopeKey).
    change (fun x : CalculatedImpact.t num => scopeKey (normalize x))
      with (@scopeKey num).
    rewrite objectEntries_map, map_map.
    apply map_ext. intros [k g]. simpl.
    rewrite sumEmissions_normalize, getEmissionsByCategory_normalize.
    reflexivity. }
  unfold aggregateImpacts. cbv zeta. rewrite Hes. reflexivity.
Qed.

Lemma aggregateImpacts_nil :
  aggregate []
  = EmissionCalculation.mk (Emission.mk CO2KGS zero) []
  /\ totalValue (aggregate []) = zero
  /\ EmissionCalculation.emissionsByScope (aggregate []) = [].
Proof. repeat split. Qed.

(** A record without a value enters every sum as the addend [zero], and
    still has its scope and category entries. *)
Lemma absent_value_generic :
  forall (l1 l2 : list (CalculatedImpact.t num)) (r : CalculatedImpact.t num),
    valueAbsent r = true ->
    impactValue zero r = zero
    /\ aggregate (l1 ++ r :: l2) = aggregate (l1 ++ withValue r zero :: l2)
    /\ (exists e c,
          In e (EmissionCalculation.emissionsByScope (aggregate (l1 ++ r :: l2)))
          /\ EmissionsByScope.scope e = scopeKey r
          /\ EmissionsByScope.emission e
             = Emission.mk CO2KGS
                 (sumE (groupOf scopeKey (scopeKey r) (l1 ++ r :: l2)))
          /\ In c (EmissionsByScope.categoryBreakdown e)
          /\ EmissionsByCategory.category c = categoryKey r
          /\ EmissionsByCategory.emission c
             = Emission.mk CO2KGS
                 (sumE (groupOf categoryKey (categoryKey r)
                          (groupOf scopeKey (scopeKey r) (l1 ++ r :: l2)))))
    /\ aggregate [r]
       = EmissionCalculation.mk (Emission.mk CO2KGS (add zero (add zero zero)))
           [ EmissionsByScope.mk (scopeKey r)
               (Emission.mk CO2KGS (add zero zero))
               [ EmissionsByCategory.mk (categoryKey r)
                   (Emission.mk CO2KGS (add zero zero)) ] ].
Proof.
  intros l1 l2 r Habs.
  pose proof (impactValue_absent r Habs) as Hzero.
  split; [exact Hzero |]. split; [| split].
  - rewrite <- (aggregateImpacts_normalize (l1 ++ r :: l2)).
    rewrite <- (aggregateImpacts_normalize (l1 ++ withValue r zero :: l2)).
    rewrite !map_app. simpl. rewrite Hzero. reflexivity.
  - assert (Hr : In r (l1 ++ r :: l2)) by (apply in_elt).
    destruct (groupBy_In scopeKey _ _ Hr) as (g & Hg & Hrg).
    destruct (groupBy_In categoryKey _ _ Hrg) as (gc & Hgc & _).
    destruct (groupBy_spec scopeKey (l1 ++ r :: l2)) as (_ & _ & Hs).
    destruct (Hs _ _ Hg) as [Hgeq _].
    destruct (groupBy_spec categoryKey g) as (_ & _ & Hc).
    destruct (Hc _ _ Hgc) as [Hgceq _].
    exists (EmissionsByScope.mk (scopeKey r) (Emission.mk CO2KGS (sumE g))
              (byCategory g)).
    exists (EmissionsByCategory.mk (categoryKey r) (Emission.mk CO2KGS (sumE gc))).
    simpl. repeat split.
    + apply scope_entry_of_group. exact Hg.
    + rewrite Hgeq. reflexivity.
    + apply category_entry_of_group. exact Hgc.
    + rewrite Hgceq, Hgeq. reflexivity.
  - unfold aggregateImpacts, getEmissionsByCategory, groupBy. simpl.
    rewrite objectEntries_single. simpl.
    rewrite objectEntries_single. simpl.
    unfold sumEmissions, reduceAdd. simpl. rewrite Hzero. reflexivity.
Qed.

End AggregationStructure.



(** C8. On the empty list the aggregation returns a summary whose total value
    is 0 and whose list of scope entries is empty. *)
Theorem aggregateImpacts_empty :
  jsAggregateImpacts [] = EmissionCalculation.mk (Emission.mk CO2KGS 0%float) []
  /\ totalValue (jsAggregateImpacts []) = 0%float
  /\ EmissionCalculation.emissionsByScope (jsAggregateImpacts []) = [].
Proof. exact (aggregateImpacts_nil PrimFloat.add 0%float). Qed.

(** ** Sums under an exact addition

    The laws of an addition that does not round, as that of the integers;
    the addition of doubles does not satisfy them. *)

Section ExactAddition.
Context {num : Type} (add : num -> num -> num) (zero : num).

Hypothesis add_assoc : forall a b c, add a (add b c) = add (add a b) c.
Hypothesis add_comm : forall a b, add a b = add b a.
Hypothesis add_zero_l : forall a, add zero a = a.

Local Abbreviation sum := (reduceAdd add zero).
Local Abbreviation sumE := (sumEmissions add zero).

Lemma fold_add_from (xs : list num) (a : num) :
  fold_left (fun a b => add a b) xs a = add a (sum xs).
Proof.
  unfold reduceAdd. revert a. induction xs as [|x xs IH]; intros a; simpl.
  - rewrite add_comm, add_zero_l. reflexivity.
  - rewrite (IH (add a x)), (IH (add zero x)), add_zero_l, add_assoc.
    reflexivity.
Qed.

Lemma sum_cons (x : num) (xs : list num) : sum (x :: xs) = add x (sum xs).
Proof.
  unfold reduceAdd at 1. simpl. rewrite fold_add_from, add_zero_l.
  reflexivity.
Qed.

Lemma sum_app (xs ys : list num) : sum (xs ++ ys) = add (sum xs) (sum ys).
Proof.
  induction xs as [|x xs IH].
  - change (sum []) with zero. rewrite add_zero_l. reflexivity.
  - rewrite <- app_comm_cons, !sum_cons, IH, add_assoc. reflexivity.
Qed.

Lemma sum_perm (xs ys : list num) : Permutation xs ys -> sum xs = sum ys.
Proof.
  induction 1 as [| x xs ys _ IH | x y xs | xs ys zs _ IH1 _ IH2].
  - reflexivity.
  - rewrite !sum_cons, IH. reflexivity.
  - rewrite !sum_cons, !add_assoc, (add_comm y x). reflexivity.
  - congruence.
Qed.

Lemma sumEmissions_perm (g g' : list (CalculatedImpact.t num)) :
  Permutation g g' -> sumE g = sumE g'.
Proof. intros H. apply sum_perm, Permutation_map, H. Qed.

Lemma sumEmissions_concat (gs : list (list (CalculatedImpact.t num))) :
  sum (map sumE gs) = sumE (List.concat gs).
Proof.
  induction gs as [|g gs IH]; [reflexivity |].
  change (map sumE (g :: gs)) with (sumE g :: map sumE gs).
  change (List.concat (g :: gs)) with (g ++ List.concat gs)%list.
  rewrite sum_cons, IH. unfold sumEmissions.
  rewrite map_app, sum_app. reflexivity.
Qed.

(** Summing group by group, in the order of the entries, is summing all. *)
Lemma sum_of_groups (key : CalculatedImpact.t num -> string)
    (l : list (CalculatedImpact.t num)) :
  sum (map (fun p => sumE (snd p)) (objectEntries (groupBy l key))) = sumE l.
Proof.
  rewrite (sum_perm _ (map (fun p => sumE (snd p)) (groupBy l key)))
    by (apply Permutation_map, objectEntries_perm).
  rewrite <- (map_map snd sumE), sumEmissions_concat.
  apply sumEmissions_perm, groupBy_concat.
Qed.

End ExactAddition.

(** ** Sums without rounding *)

Lemma absSum_nonneg (ks : list Z) : 0 <= absSum ks.
Proof. induction ks as [|k ks IH]; simpl; lia. Qed.

Lemma absSum_app (ks ks' : list Z) : absSum (ks ++ ks') = absSum ks + absSum ks'.
Proof. induction ks as [|k ks IH]; simpl; lia. Qed.

Lemma abs_fold_add (ks : list Z) (a : Z) :
  Z.abs (fold_left (fun x y => x + y) ks a) <= Z.abs a + absSum ks.
Proof.
  revert a. induction ks as [|k ks IH]; intros a; simpl; [lia |].
  specialize (IH (a + k)). lia.
Qed.

Lemma magnitude_app (l l' : list (CalculatedImpact.t Z)) :
  magnitude (l ++ l') = magnitude l + magnitude l'.
Proof. unfold magnitude. rewrite map_app. apply absSum_app. Qed.

Lemma magnitude_nonneg (l : list (CalculatedImpact.t Z)) : 0 <= magnitude l.
Proof. apply absSum_nonneg. Qed.

Lemma magnitude_perm (l l' : list (CalculatedImpact.t Z)) :
  Permutation l l' -> magnitude l = magnitude l'.
Proof.
  induction 1 as [| x l l' _ IH | x y l | l l' l'' _ IH1 _ IH2];
    unfold magnitude in *; simpl; lia.
Qed.

Lemma magnitude_filter (p : CalculatedImpact.t Z -> bool)
    (l : list (CalculatedImpact.t Z)) :
  magnitude (filter p l) <= magnitude l.
Proof.
  induction l as [|x l IH]; simpl; [lia |].
  unfold magnitude in *. destruct (p x); simpl; lia.
Qed.

Lemma magnitude_concat_perm (gs gs' : list (list (CalculatedImpact.t Z))) :
  Permutation gs gs' ->
  magnitude (List.concat gs) = magnitude (List.concat gs').
Proof.
  induction 1 as [| g gs gs' _ IH | g h gs | gs gs' gs'' _ IH1 _ IH2]; simpl;
    rewrite ?magnitude_app; lia.
Qed.

Lemma abs_sumEmissions (g : list (CalculatedImpact.t Z)) :
  Z.abs (sumEmissions Z.add 0 g) <= magnitude g.
Proof. apply (abs_fold_add (map (impactValue 0) g) 0). Qed.

Lemma absSum_sums (gs : list (list (CalculatedImpact.t Z))) :
  absSum (map (sumEmissions Z.add 0) gs) <= magnitude (List.concat gs).
Proof.
  induction gs as [|g gs IH]; simpl; [unfold magnitude; simpl; lia |].
  rewrite magnitude_app. pose proof (abs_sumEmissions g). lia.
Qed.

Lemma entries_magnitude (key : CalculatedImpact.t Z -> string)
    (l : list (CalculatedImpact.t Z)) :
  magnitude (List.concat (map snd (objectEntries (groupBy l key)))) = magnitude l.
Proof.
  rewrite (magnitude_concat_perm _ (map snd (groupBy l key)))
    by (apply Permutation_map, objectEntries_perm).
  apply magnitude_perm, groupBy_concat.
Qed.

Lemma entry_magnitude (key : CalculatedImpact.t Z -> string)
    (l : list (CalculatedImpact.t Z)) (p : string * list (CalculatedImpact.t Z)) :
  In p (objectEntries (groupBy l key)) -> magnitude (snd p) <= magnitude l.
Proof.
  intros Hin. apply (proj1 (objectEntries_In _ _)) in Hin. destruct p as [k g].
  destruct (groupBy_spec key l) as (_ & _ & Hgroups).
  destruct (Hgroups _ _ Hin) as [-> _]. apply magnitude_filter.
Qed.

Lemma Z_sum_of_groups (key : CalculatedImpact.t Z -> string)
    (l : list (CalculatedImpact.t Z)) :
  reduceAdd Z.add 0
    (map (fun p => sumEmissions Z.add 0 (snd p)) (objectEntries (groupBy l key)))
  = sumEmissions Z.add 0 l.
Proof. apply sum_of_groups; intros; lia. Qed.

Section ExactGrid.

Variable grid : Z -> JsNumber.
Variable bound : Z.
Hypothesis Hgrid : exactGrid grid bound.

Local Abbreviation toJs := (onValue grid).
Local Abbreviation sumZ := (sumEmissions Z.add 0).

Lemma fold_grid (ks : list Z) (a : Z) :
  Z.abs a + absSum ks <= bound ->
  fold_left (fun x y => PrimFloat.add x y) (map grid ks) (grid a)
  = grid (fold_left (fun x y => x + y) ks a).
Proof.
  revert a. induction ks as [|k ks IH]; intros a Hle; simpl; [reflexivity |].
  simpl in Hle. pose proof (absSum_nonneg ks).
  rewrite (proj2 Hgrid a k) by lia. apply IH. lia.
Qed.

Lemma reduceAdd_grid (ks : list Z) :
  absSum ks <= bound ->
  reduceAdd PrimFloat.add 0%float (map grid ks) = grid (reduceAdd Z.add 0 ks).
Proof.
  intros Hle. unfold reduceAdd.
  pose proof (fold_grid ks 0) as H. rewrite (proj1 Hgrid) in H.
  apply H. simpl. exact Hle.
Qed.

Lemma impactValue_toJs (r : CalculatedImpact.t Z) :
  impactValue 0%float (toJs r) = grid (impactValue 0 r).
Proof.
  destruct r as [act [| |[[| |v]]]]; simpl; try reflexivity;
    symmetry; apply Hgrid.
Qed.

Lemma jsSum_grid (g : list (CalculatedImpact.t Z)) :
  magnitude g <= bound -> jsSumEmissions (map toJs g) = grid (sumZ g).
Proof.
  intros Hle. unfold jsSumEmissions, sumEmissions.
  rewrite map_map, (map_ext _ _ impactValue_toJs), <- (map_map (impactValue 0) grid).
  apply reduceAdd_grid. exact Hle.
Qed.

(** The float sum over the entries of a grouping is the exact sum of all. *)
Lemma js_sum_of_entries (key : CalculatedImpact.t Z -> string)
    (l : list (CalculatedImpact.t Z)) :
  magnitude l <= bound ->
  reduceAdd PrimFloat.add 0%float
    (map (fun p => jsSumEmissions (map toJs (snd p)))
       (objectEntries (groupBy l key)))
  = grid (sumZ l).
Proof.
  intros Hle.
  rewrite (map_ext_in _ (fun p => grid (sumZ (snd p)))).
  - rewrite <- (map_map (fun p => sumZ (snd p)) grid), reduceAdd_grid.
    + rewrite Z_sum_of_groups. reflexivity.
    + rewrite <- (map_map snd sumZ).
      pose proof (absSum_sums (map snd (objectEntries (groupBy l key)))) as H.
      rewrite entries_magnitude in H. lia.
  - intros p Hin. apply jsSum_grid.
    pose proof (entry_magnitude key l p Hin). lia.
Qed.

Lemma js_categories (g : list (CalculatedImpact.t Z)) :
  getEmissionsByCategory PrimFloat.add 0%float (map toJs g)
  = map (fun p =>
           EmissionsByCategory.mk (fst p)
             (Emission.mk CO2KGS (jsSumEmissions (map toJs (snd p)))))
      (objectEntries (groupBy g categoryKey)).
Proof.
  unfold getEmissionsByCategory.
  rewrite (groupBy_map toJs categoryKey).
  change (fun x : CalculatedImpact.t Z => categoryKey (toJs x))
    with (@categoryKey Z).
  rewrite objectEntries_map, map_map.
  apply map_ext. intros [k g']. reflexivity.
Qed.

Lemma js_scopes (l : list (CalculatedImpact.t Z)) :
  EmissionCalculation.emissionsByScope (jsAggregateImpacts (map toJs l))
  = map (fun p =>
           EmissionsByScope.mk (fst p)
             (Emission.mk CO2KGS (jsSumEmissions (map toJs (snd p))))
             (getEmissionsByCategory PrimFloat.add 0%float (map toJs (snd p))))
      (objectEntries (groupBy l scopeKey)).
Proof.
  unfold jsAggregateImpacts, aggregateImpacts. simpl.
  rewrite (groupBy_map toJs scopeKey).
  change (fun x : CalculatedImpact.t Z => scopeKey (toJs x)) with (@scopeKey Z).
  rewrite objectEntries_map, map_map.
  apply map_ext. intros [k g]. reflexivity.
Qed.

(** Without rounding the total is the double of the exact sum. *)
Lemma js_total (l : list (CalculatedImpact.t Z)) :
  magnitude l <= bound ->
  totalValue (jsAggregateImpacts (map toJs l)) = grid (sumZ l).
Proof.
  intros Hle. rewrite <- (js_sum_of_entries scopeKey l Hle).
  change (totalValue (jsAggregateImpacts (map toJs l)))
    with (reduceAdd PrimFloat.add 0%float
            (map (fun e => Emission.value (EmissionsByScope.emission e))
               (EmissionCalculation.emissionsByScope
                  (jsAggregateImpacts (map toJs l))))).
  rewrite js_scopes, map_map. reflexivity.
Qed.

Lemma js_scope_categories (l : list (CalculatedImpact.t Z))
    (e : EmissionsByScope.t JsNumber) :
  magnitude l <= bound ->
  In e (EmissionCalculation.emissionsByScope (jsAggregateImpacts (map toJs l))) ->
  Emission.value (EmissionsByScope.emission e)
  = sumOfCategories PrimFloat.add 0%float e.
Proof.
  intros Hle Hin. rewrite js_scopes in Hin. apply in_map_iff in Hin.
  destruct Hin as (p & <- & Hp). unfold sumOfCategories. simpl.
  pose proof (entry_magnitude scopeKey l p Hp) as Hg.
  rewrite js_categories, map_map. simpl.
  rewrite js_sum_of_entries by lia. apply jsSum_grid. lia.
Qed.

End ExactGrid.

(** *** Integers up to 100 are such a grid *)

Lemma zrange_In (bound a : Z) : - bound <= a <= bound -> In a (zrange bound).
Proof.
  intros H. unfold zrange. apply in_map_iff.
  exists (Z.to_nat (a + bound)). split; [lia |].
  apply in_seq. lia.
Qed.

Lemma partners_In (bound a b : Z) :
  Z.abs b <= bound -> Z.abs (a + b) <= bound -> In b (partners bound a).
Proof.
  intros Hb Hab. unfold partners. apply filter_In. split.
  - apply zrange_In. lia.
  - apply Z.leb_le. exact Hab.
Qed.

(** A grid is exact once every addition within the bound evaluates to the
    double of the sum. *)
Lemma exactGrid_of_table (grid : Z -> JsNumber) (bound : Z) :
  grid 0 = 0%float ->
  map (fun a => map (fun b => PrimFloat.add (grid a) (grid b)) (partners bound a))
    (zrange bound)
  = map (fun a => map (fun b => grid (a + b)) (partners bound a)) (zrange bound) ->
  exactGrid grid bound.
Proof.
  intros Hzero Htable. split; [exact Hzero |]. intros a b Ha Hb Hab.
  assert (Hrow : In a (zrange bound)) by (apply zrange_In; lia).
  pose proof (ext_in_map Htable a Hrow) as Hrow'.
  apply (ext_in_map Hrow' b). apply partners_In; assumption.
Qed.

Lemma ofInteger_exact : exactGrid ofInteger 100.
Proof.
  apply exactGrid_of_table; [reflexivity |]. vm_compute. reflexivity.
Qed.

Lemma ofQuarters_exact : exactGrid ofQuarters 100.
Proof.
  apply exactGrid_of_table; [vm_compute; reflexivity |]. vm_compute. reflexivity.
Qed.

(** With values in quarters, for instance, the total is the double of the
    exact sum. *)
Lemma total_of_quarters (l : list (CalculatedImpact.t Z)) :
  magnitude l <= 100 ->
  totalValue (jsAggregateImpacts (map (onValue ofQuarters) l))
  = ofQuarters (sumEmissions Z.add 0 l).
Proof. apply js_total, ofQuarters_exact. Qed.

(** ** Decomposition and order independence *)

(** C4, as the specification states it, fails for JavaScript numbers: with
    the values 1e16, 1, -1e16 of categories c1, c2, c1 in one scope, the scope
    value is 0 while the category values 0 and 1 sum to 1. *)
Lemma aggregation_decomposition_counterexample :
  ~ (forall (l : list (CalculatedImpact.t JsNumber)) (e : EmissionsByScope.t JsNumber),
       In e (EmissionCalculation.emissionsByScope (jsAggregateImpacts l)) ->
       Emission.value (EmissionsByScope.emission e)
       = sumOfCategories PrimFloat.add 0%float e).
Proof.
  intros H.
  specialize (H Sample.cancelling _ (or_introl eq_refl)).
  vm_compute in H. discriminate H.
Qed.

(** C4, amended. For every list of records the total value is the sum of
    the scope values, and the value of every scope entry is the sum of the
    values of the records of that scope, both summed left to right from 0.
    The value of every scope entry is moreover the sum of its category values
    whenever no addition rounds: whenever the record values are doubles
    [grid k] of a grid on which addition is exact up to a bound that the sum
    of the magnitudes [|k|] does not exceed (integers, for instance). *)
Theorem aggregation_decomposition :
  forall records : list (CalculatedImpact.t JsNumber),
    let summary := jsAggregateImpacts records in
    totalValue summary = sumOfScopes PrimFloat.add 0%float summary
    /\ (forall e, In e (EmissionCalculation.emissionsByScope summary) ->
          Emission.value (EmissionsByScope.emission e)
          = jsSumEmissions (groupOf scopeKey (EmissionsByScope.scope e) records))
    /\ (forall (grid : Z -> JsNumber) (bound : Z)
               (l : list (CalculatedImpact.t Z)),
          exactGrid grid bound ->
          magnitude l <= bound ->
          records = map (onValue grid) l ->
          forall e, In e (EmissionCalculation.emissionsByScope summary) ->
            Emission.value (EmissionsByScope.emission e)
            = sumOfCategories PrimFloat.add 0%float e).
Proof.
  intros records summary. split; [reflexivity |]. split.
  - intros e Hin.
    destruct (scope_entry_inv (num := JsNumber) PrimFloat.add 0%float
                records e Hin) as (g & _ & -> & -> & _).
    reflexivity.
  - intros grid bound l Hgrid Hle -> e Hin.
    apply (js_scope_categories grid bound Hgrid l e Hle Hin).
Qed.

(** The example scenario at doubles: total 35, and every scope value is the
    sum of its category values (30 = 10 + 20, 5 = 5). *)
Lemma aggregation_decomposition_witness :
  let summary := jsAggregateImpacts (map (onValue ofInteger) Sample.scenario) in
  totalValue summary = 35%float
  /\ forall e, In e (EmissionCalculation.emissionsByScope summary) ->
       Emission.value (EmissionsByScope.emission e)
       = sumOfCategories PrimFloat.add 0%float e.
Proof.
  split; [vm_compute; reflexivity |].
  apply (proj2 (proj2 (aggregation_decomposition
                         (map (onValue ofInteger) Sample.scenario)))
           ofInteger 100 Sample.scenario ofInteger_exact);
    [vm_compute; discriminate | reflexivity].
Defined.

(** C6, as the specification states it, fails for JavaScript numbers: the
    values 1e16, 1, -1e16 of one scope total 0, and 1 once the last two
    records are exchanged. *)
Lemma total_order_independence_counterexample :
  ~ (forall l l' : list (CalculatedImpact.t JsNumber),
       Permutation l l' ->
       totalValue (jsAggregateImpacts l) = totalValue (jsAggregateImpacts l')).
Proof.
  intros H.
  specialize (H Sample.cancelling Sample.cancellingShuffled).
  assert (Hperm : Permutation Sample.cancelling Sample.cancellingShuffled)
    by (apply perm_skip, perm_swap).
  specialize (H Hperm). vm_compute in H. discriminate H.
Qed.

(** C6, amended. Whenever no addition rounds, the total value of the
    aggregation of a permuted list equals that of the original list: that is,
    whenever the record values are doubles [grid k] of a grid on which
    addition is exact up to a bound that the sum of the magnitudes [|k|]
    does not exceed (integers, for instance). *)
Theorem total_order_independence :
  forall (grid : Z -> JsNumber) (bound : Z),
    exactGrid grid bound ->
    forall (l : list (CalculatedImpact.t Z))
           (permuted : list (CalculatedImpact.t JsNumber)),
      magnitude l <= bound ->
      Permutation (map (onValue grid) l) permuted ->
      totalValue (jsAggregateImpacts (map (onValue grid) l))
      = totalValue (jsAggregateImpacts permuted).
Proof.
  intros grid bound Hgrid l permuted Hle Hperm.
  apply Permutation_sym, Permutation_map_inv in Hperm.
  destruct Hperm as (l' & -> & Hperm).
  rewrite (js_total grid bound Hgrid l Hle).
  rewrite (js_total grid bound Hgrid l')
    by (rewrite <- (magnitude_perm _ _ Hperm); exact Hle).
  f_equal. apply sumEmissions_perm; [intros; lia | intros; lia | intros; lia |].
  exact Hperm.
Qed.

Lemma total_order_independence_witness :
  totalValue (jsAggregateImpacts (map (onValue ofInteger) Sample.scenario))
  = totalValue (jsAggregateImpacts (map (onValue ofInteger) Sample.scenarioShuffled)).
Proof.
  apply (total_order_independence ofInteger 100 ofInteger_exact Sample.scenario).
  - vm_compute. discriminate.
  - apply perm_swap.
Defined.

(** The example scenario at JavaScript numbers. *)
Example aggregateImpacts_scenario :
  jsAggregateImpacts
    [ impactRecord "Scope 1" "c1" 10%float;
      impactRecord "Scope 1" "c2" 20%float;
      impactRecord "Scope 2" "c3" 5%float ]
  = EmissionCalculation.mk (Emission.mk CO2KGS 35%float)
      [ EmissionsByScope.mk "Scope 1" (Emission.mk CO2KGS 30%float)
          [ EmissionsByCategory.mk "c1" (Emission.mk CO2KGS 10%float);
            EmissionsByCategory.mk "c2" (Emission.mk CO2KGS 20%float) ];
        EmissionsByScope.mk "Scope 2" (Emission.mk CO2KGS 5%float)
          [ EmissionsByCategory.mk "c3" (Emission.mk CO2KGS 5%float) ] ].
Proof. vm_compute. reflexivity. Qed.

(** Keys that are array indices come first in the output, in numeric order. *)
Example aggregateImpacts_index_keys :
  map EmissionsByScope.scope
    (EmissionCalculation.emissionsByScope
       (jsAggregateImpacts
          [ impactRecord "b" "c" 1%float; impactRecord "10" "c" 1%float;
            impactRecord "2" "c" 1%float; impactRecord "02" "c" 1%float ]))
  = ["2"; "10"; "b"; "02"].
Proof. vm_compute. reflexivity. Qed.

(* ================================================================== *)
(** * Further properties *)

(** ** The order of roles *)

(** X1. On defined roles [isRoleAtLeast] is a total order: reflexive,
    antisymmetric, transitive, and any two roles are comparable. *)
Theorem isRoleAtLeast_total_order :
  forall a b c : OrganizationRole,
    isRoleAtLeast (JsVal a) (JsVal a) = true
    /\ (isRoleAtLeast (JsVal a) (JsVal b) = true ->
        isRoleAtLeast (JsVal b) (JsVal a) = true -> a = b)
    /\ (isRoleAtLeast (JsVal a) (JsVal b) = true ->
        isRoleAtLeast (JsVal b) (JsVal c) = true ->
        isRoleAtLeast (JsVal a) (JsVal c) = true)
    /\ (isRoleAtLeast (JsVal a) (JsVal b) = true
        \/ isRoleAtLeast (JsVal b) (JsVal a) = true).
Proof.
  intros a b c. repeat split.
  - destruct a; reflexivity.
  - destruct a, b; cbv; intros; congruence.
  - destruct a, b, c; cbv; intros; congruence.
  - destruct a, b; cbv; auto.
Qed.

(** X2. [isRoleAtMost(role, atMost)] holds exactly when both are defined
    roles and the rank of [role] is at most the rank of [atMost]; on defined
    roles it holds together with [isRoleAtLeast] only for equal roles, and at
    least one of the two holds. *)
Theorem isRoleAtMost_spec :
  forall role atMost : Nullable OrganizationRole,
    (isRoleAtMost role atMost = true <->
     exists r m, role = JsVal r /\ atMost = JsVal m
                 /\ ORGANIZATION_ROLE_ORDER r <= ORGANIZATION_ROLE_ORDER m)
    /\ (forall r m, role = JsVal r -> atMost = JsVal m ->
          (isRoleAtMost role atMost = true /\ isRoleAtLeast role atMost = true
           <-> r = m)
          /\ (isRoleAtMost role atMost = true \/ isRoleAtLeast role atMost = true)).
Proof.
  intros role atMost. split.
  - unfold isRoleAtMost. split.
    + intros H. destruct role as [| |r], atMost as [| |m];
        try (rewrite isRoleAtLeast_nullish_have in H by auto; discriminate);
        try (rewrite isRoleAtLeast_nullish_want in H by auto; discriminate).
      exists r, m. repeat split.
      rewrite isRoleAtLeast_defined, Z.geb_leb in H. apply Z.leb_le in H. exact H.
    + intros (r & m & -> & -> & H).
      rewrite isRoleAtLeast_defined, Z.geb_leb. apply Z.leb_le. exact H.
  - intros r m -> ->. unfold isRoleAtMost. split.
    + split.
      * destruct r, m; cbv; intros [? ?]; congruence.
      * intros ->. destruct m; auto.
    + destruct r, m; cbv; auto.
Qed.

(** ** OrgValidator and the authorization services *)

Lemma OrganizationAccountType_eqb_eq (a b : OrganizationAccountType.t) :
  OrganizationAccountType.eqb a b = true <-> a = b.
Proof. destruct a, b; simpl; split; congruence. Qed.

Lemma checkMember_pass_iff (v : OrgValidator.t) (user : AuthenticatedUser.t)
    (minRole : OrganizationRole) :
  OrgValidator.checkMember v user minRole = Return v
  <-> isRoleAtLeast
        (optChain (OrgValidator.membershipOf v user) (fun m => JsVal (Member.role m)))
        (JsVal minRole) = true.
Proof.
  unfold OrgValidator.checkMember.
  destruct (isRoleAtLeast _ _); simpl; split; congruence.
Qed.

Lemma checkMember_outcome (v : OrgValidator.t) (user : AuthenticatedUser.t)
    (minRole : OrganizationRole) :
  OrgValidator.checkMember v user minRole = Return v
  \/ isForbidden (OrgValidator.checkMember v user minRole) = true.
Proof.
  unfold OrgValidator.checkMember. destruct (isRoleAtLeast _ _); simpl; auto.
Qed.

Lemma isRoleAtLeast_trans (x y z : Nullable OrganizationRole) :
  isRoleAtLeast x y = true -> isRoleAtLeast y z = true ->
  isRoleAtLeast x z = true.
Proof.
  destruct x as [| |a], y as [| |b], z as [| |c]; try discriminate;
    try (destruct a; discriminate); try (destruct b; discriminate).
  destruct a, b, c; cbv; intros; congruence.
Qed.

(** [checkType] returns the validator itself exactly when the account
    type is present and equal to the required one; in every other case,
    among them an organization without account type, it throws
    [ForbiddenException]. *)
Theorem checkType_spec :
  forall (v : OrgValidator.t) (required : OrganizationAccountType.t),
    (OrgValidator.checkType v required = Return v
     <-> OrganizationAccount.accountType (OrgValidator.org v) = JsVal required)
    /\ (OrgValidator.checkType v required = Return v
        \/ OrgValidator.checkType v required
           = Throw (ForbiddenException
                      ("Organization Account must be of type "
                         ++ OrganizationAccountType.value required ++ "."))).
Proof.
  intros v required. unfold OrgValidator.checkType.
  destruct (OrganizationAccount.accountType (OrgValidator.org v)) as [| |a].
  - split; [split; discriminate | auto].
  - split; [split; discriminate | auto].
  - destruct (OrganizationAccountType.eqb a required) eqn:E.
    + apply OrganizationAccountType_eqb_eq in E. subst. split; [tauto | auto].
    + split; [| auto]. split; [discriminate |].
      intros [= ->]. destruct required; discriminate.
Qed.

Lemma checkMember_lower (v : OrgValidator.t) (user : AuthenticatedUser.t)
    (minRole lower : OrganizationRole) :
  OrgValidator.checkMember v user minRole = Return v ->
  isRoleAtLeast (JsVal minRole) (JsVal lower) = true ->
  OrgValidator.checkMember v user lower = Return v.
Proof.
  intros Hpass Hlower.
  apply checkMember_pass_iff. apply checkMember_pass_iff in Hpass.
  eapply isRoleAtLeast_trans; eassumption.
Qed.

(** X3. A member who passes [checkMember] at some level passes it at every
    lower level: higher roles have all the privileges of lower ones. *)
Theorem checkMember_monotone :
  forall (v : OrgValidator.t) (user : AuthenticatedUser.t)
         (minRole lower : OrganizationRole),
    OrgValidator.checkMember v user minRole = Return v ->
    isRoleAtLeast (JsVal minRole) (JsVal lower) = true ->
    OrgValidator.checkMember v user lower = Return v.
Proof.
  intros v user minRole lower. apply checkMember_lower.
Qed.

Lemma checkMember_monotone_witness :
  OrgValidator.checkMember (OrgValidator.mk Sample.org)
    (AuthenticatedUser.mk Sample.orgAdmin) OrganizationRole.GUEST
  = Return (OrgValidator.mk Sample.org).
Proof.
  apply (checkMember_monotone (OrgValidator.mk Sample.org)
           (AuthenticatedUser.mk Sample.orgAdmin)
           OrganizationRole.ADMIN OrganizationRole.GUEST);
    reflexivity.
Defined.

Lemma checkSiteRoleAdminOrOrgRole_pass_iff (req : Request.t)
    (org : OrganizationAccount.t) (required : OrganizationRole) :
  AuthzService.checkSiteRoleAdminOrOrgRole req org required = Value tt
  <-> exists user, Request.user req = JsVal user
        /\ (UserDocument.role (AuthenticatedUser.userDoc user) = UserRoles.ADMIN
            \/ OrgValidator.checkMember (OrgValidator.mk org) user required
               = Return (OrgValidator.mk org)).
Proof.
  unfold AuthzService.checkSiteRoleAdminOrOrgRole.
  destruct (Request.user req) as [| |user]; simpl.
  - split; [discriminate | intros (u & H & _); discriminate].
  - split; [discriminate | intros (u & H & _); discriminate].
  - destruct (UserRoles.eqb _ UserRoles.ADMIN) eqn:Hadmin.
    + split; [intros _; exists user; split; [reflexivity | left] | reflexivity].
      destruct (UserDocument.role (AuthenticatedUser.userDoc user));
        simpl in Hadmin; congruence.
    + destruct (checkMember_outcome (OrgValidator.mk org) user required)
        as [Hok | Hforbidden].
      * rewrite Hok. simpl.
        split; [intros _; exists user; auto | reflexivity].
      * destruct (OrgValidator.checkMember (OrgValidator.mk org) user required)
          as [e | v] eqn:Hcm; [| discriminate].
        simpl. split; [discriminate |].
        intros (u & [= <-] & [H | H]); [| congruence].
        rewrite H in Hadmin. discriminate.
Qed.

(** X4. [checkSiteRoleAdminOrOrgRole] passes exactly when the request has a
    user who is a site admin or passes [checkMember] at the required role;
    without a user it throws [UnauthorizedException], and otherwise it throws
    [ForbiddenException]. *)
Theorem checkSiteRoleAdminOrOrgRole_spec :
  forall (req : Request.t) (org : OrganizationAccount.t)
         (required : OrganizationRole),
    let result := AuthzService.checkSiteRoleAdminOrOrgRole req org required in
    (result = Value tt <->
     exists user, Request.user req = JsVal user
       /\ (UserDocument.role (AuthenticatedUser.userDoc user) = UserRoles.ADMIN
           \/ OrgValidator.checkMember (OrgValidator.mk org) user required
              = Return (OrgValidator.mk org)))
    /\ ((Request.user req = JsNull \/ Request.user req = JsUndefined) <->
        result = Raise (UnauthorizedException "User not authenticated"))
    /\ (result = Value tt
        \/ result = Raise (UnauthorizedException "User not authenticated")
        \/ exists msg, result = Raise (Http (ForbiddenException msg))).
Proof.
  intros req org required. unfold AuthzService.checkSiteRoleAdminOrOrgRole.
  destruct (Request.user req) as [| |user]; simpl.
  - split; [| split].
    + split; [discriminate | intros (u & H & _); discriminate].
    + split; auto.
    + auto.
  - split; [| split].
    + split; [discriminate | intros (u & H & _); discriminate].
    + split; auto.
    + auto.
  - destruct (UserRoles.eqb _ UserRoles.ADMIN) eqn:Hadmin.
    + assert (Hrole : UserDocument.role (AuthenticatedUser.userDoc user)
                      = UserRoles.ADMIN).
      { destruct (UserDocument.role (AuthenticatedUser.userDoc user));
          simpl in Hadmin; congruence. }
      split; [| split].
      * split; [intros _; exists user; auto | reflexivity].
      * split; [intros [H | H]; discriminate | discriminate].
      * auto.
    + assert (Hrole : UserDocument.role (AuthenticatedUser.userDoc user)
                      <> UserRoles.ADMIN).
      { intros E. rewrite E in Hadmin. discriminate. }
      destruct (checkMember_outcome (OrgValidator.mk org) user required)
        as [Hok | Hforbidden].
      * rewrite Hok. simpl. split; [| split].
        -- split; [intros _; exists user; auto | reflexivity].
        -- split; [intros [H | H]; discriminate | discriminate].
        -- auto.
      * destruct (OrgValidator.checkMember (OrgValidator.mk org) user required)
          as [e | v] eqn:Hcm; [| discriminate].
        destruct e; try discriminate. simpl. split; [| split].
        -- split; [discriminate |].
           intros (u & [= <-] & [H | H]); [contradiction | congruence].
        -- split; [intros [H | H]; discriminate | discriminate].
        -- right. right. eauto.
Qed.

(** X5. Whoever passes [checkSiteRoleAdmin] passes
    [checkSiteRoleAdminOrOrgRole] for every organization and every required
    role, member or not; and passing the latter at some role implies passing
    it at every lower role. *)
Theorem site_admin_passes_everywhere :
  forall (req : Request.t),
    (AuthzService.checkSiteRoleAdmin req = Value tt ->
     forall org required,
       AuthzService.checkSiteRoleAdminOrOrgRole req org required = Value tt)
    /\ (forall org required lower,
          AuthzService.checkSiteRoleAdminOrOrgRole req org required = Value tt ->
          isRoleAtLeast (JsVal required) (JsVal lower) = true ->
          AuthzService.checkSiteRoleAdminOrOrgRole req org lower = Value tt).
Proof.
  intros req. split.
  - unfold AuthzService.checkSiteRoleAdmin,
      AuthzService.checkSiteRoleAdminOrOrgRole.
    destruct (Request.user req) as [| |user]; try discriminate.
    destruct (UserRoles.eqb _ UserRoles.ADMIN); simpl; [reflexivity | discriminate].
  - intros org required lower Hpass Hlower.
    apply checkSiteRoleAdminOrOrgRole_pass_iff.
    apply checkSiteRoleAdminOrOrgRole_pass_iff in Hpass.
    destruct Hpass as (user & Huser & [Hadmin | Hmember]).
    + exists user. auto.
    + exists user. split; [exact Huser |]. right.
      eapply checkMember_lower; eassumption.
Qed.

Lemma site_admin_passes_everywhere_witness :
  AuthzService.checkSiteRoleAdminOrOrgRole (Fixture.requestOf Sample.siteAdmin)
    Fixture.starterOrg OrganizationRole.SUPER_ADMIN = Value tt
  /\ AuthzService.checkSiteRoleAdminOrOrgRole (Fixture.requestOf Sample.orgAdmin)
       Sample.org OrganizationRole.USER = Value tt.
Proof.
  split.
  - apply (proj1 (site_admin_passes_everywhere
                    (Fixture.requestOf Sample.siteAdmin))).
    reflexivity.
  - apply (proj2 (site_admin_passes_everywhere
                    (Fixture.requestOf Sample.orgAdmin))
             Sample.org OrganizationRole.ADMIN OrganizationRole.USER);
      reflexivity.
Defined.

Lemma isRoleAtLeast_ADMIN (r : OrganizationRole) :
  isRoleAtLeast (JsVal r) (JsVal OrganizationRole.ADMIN) = true
  <-> r = OrganizationRole.ADMIN \/ r = OrganizationRole.SUPER_ADMIN.
Proof.
  destruct r; cbv; split; intros H; auto; try discriminate;
    destruct H; discriminate.
Qed.

Lemma checkMember_ADMIN_iff (org : OrganizationAccount.t)
    (user : AuthenticatedUser.t) :
  OrgValidator.checkMember (OrgValidator.mk org) user OrganizationRole.ADMIN
  = Return (OrgValidator.mk org)
  <-> exists m,
        OrgValidator.membershipOf (OrgValidator.mk org) user = JsVal m
        /\ (Member.role m = OrganizationRole.ADMIN
            \/ Member.role m = OrganizationRole.SUPER_ADMIN).
Proof.
  rewrite checkMember_pass_iff.
  destruct (OrgValidator.membershipOf (OrgValidator.mk org) user) as [| |m];
    simpl.
  - split; [discriminate | intros (m & H & _); discriminate].
  - split; [discriminate | intros (m & H & _); discriminate].
  - rewrite isRoleAtLeast_ADMIN. split.
    + intros H. exists m. auto.
    + intros (m' & [= <-] & H). exact H.
Qed.

(** X6. [checkUserIsAdminOnStarterOrg] returns the user and the organization
    exactly when the request has a user, the organization exists, is of type
    STARTER, and the user's membership entry has role ADMIN or SUPER_ADMIN. A
    request without user gets [UnauthorizedException] whatever the lookup
    gives; a missing organization gets [ForbiddenException]; and no failure
    is anything but these two, so [NotFoundException] never reveals whether
    the organization exists. *)
Theorem checkUserIsAdminOnStarterOrg_spec :
  forall (findById : ObjectId.t -> Nullable OrganizationAccount.t)
         (req : Request.t) (orgId : ObjectId.t),
    let result :=
      StarterAuthzService.checkUserIsAdminOnStarterOrg findById req orgId in
    (forall user org,
       result = Value (user, org) <->
       Request.user req = JsVal user
       /\ findById orgId = JsVal org
       /\ OrganizationAccount.accountType org
          = JsVal OrganizationAccountType.STARTER
       /\ exists m,
            OrgValidator.membershipOf (OrgValidator.mk org) user = JsVal m
            /\ (Member.role m = OrganizationRole.ADMIN
                \/ Member.role m = OrganizationRole.SUPER_ADMIN))
    /\ ((Request.user req = JsNull \/ Request.user req = JsUndefined) ->
        result = Raise (UnauthorizedException "User not authenticated"))
    /\ (forall user, Request.user req = JsVal user ->
          (findById orgId = JsNull \/ findById orgId = JsUndefined) ->
          result = Raise (Http (ForbiddenException
                                  ("Organization " ++ ObjectId.hex orgId
                                     ++ " not allowed."))))
    /\ (forall e, result = Raise e ->
          e = UnauthorizedException "User not authenticated"
          \/ exists msg, e = Http (ForbiddenException msg)).
Proof.
  intros findById req orgId.
  unfold StarterAuthzService.checkUserIsAdminOnStarterOrg.
  destruct (Request.user req) as [| |user].
  - split; [| split; [| split]].
    + intros u o. split; [discriminate | intros (H & _); discriminate].
    + reflexivity.
    + intros u H. discriminate.
    + intros e [= <-]. auto.
  - split; [| split; [| split]].
    + intros u o. split; [discriminate | intros (H & _); discriminate].
    + reflexivity.
    + intros u H. discriminate.
    + intros e [= <-]. auto.
  - assert (Hnone : forall (x : Nullable OrganizationAccount.t) u o,
              x = JsNull \/ x = JsUndefined ->
              ~ (JsVal user = JsVal u /\ x = JsVal o
                 /\ OrganizationAccount.accountType o
                    = JsVal OrganizationAccountType.STARTER
                 /\ exists m : Member.t,
                      OrgValidator.membershipOf (OrgValidator.mk o) u = JsVal m
                      /\ (Member.role m = OrganizationRole.ADMIN
                          \/ Member.role m = OrganizationRole.SUPER_ADMIN))).
    { intros x u o [-> | ->] (_ & H & _); discriminate. }
    destruct (findById orgId) as [| |org].
    + split; [| split; [| split]].
      * intros u o. split; [discriminate | intros H].
        destruct (Hnone JsNull u o); auto.
      * intros [H | H]; discriminate.
      * reflexivity.
      * intros e [= <-]. eauto.
    + split; [| split; [| split]].
      * intros u o. split; [discriminate | intros H].
        destruct (Hnone JsUndefined u o); auto.
      * intros [H | H]; discriminate.
      * reflexivity.
      * intros e [= <-]. eauto.
    + destruct (checkType_spec (OrgValidator.mk org)
                  OrganizationAccountType.STARTER) as [Htype [Hok | Hbad]].
      * rewrite Hok. simpl bind. apply Htype in Hok. simpl in Hok.
        destruct (checkMember_outcome (OrgValidator.mk org) user
                    OrganizationRole.ADMIN) as [Hpass | Hforbidden].
        -- rewrite Hpass. simpl. apply checkMember_ADMIN_iff in Hpass.
           split; [| split; [| split]].
           ++ intros u o. split.
              ** intros [= <- <-]. auto.
              ** intros ([= <-] & [= <-] & _). reflexivity.
           ++ intros [H | H]; discriminate.
           ++ intros u _ [H | H]; discriminate.
           ++ discriminate.
        -- destruct (OrgValidator.checkMember (OrgValidator.mk org) user
                       OrganizationRole.ADMIN) as [e | v] eqn:Hcm;
             [| discriminate].
           destruct e; try discriminate. simpl.
           split; [| split; [| split]].
           ++ intros u o. split; [discriminate |].
              intros ([= <-] & [= <-] & _ & Hm).
              apply checkMember_ADMIN_iff in Hm. congruence.
           ++ intros [H | H]; discriminate.
           ++ intros u _ [H | H]; discriminate.
           ++ intros e [= <-]. eauto.
      * rewrite Hbad. simpl.
        split; [| split; [| split]].
        -- intros u o. split; [discriminate |].
           intros ([= <-] & [= <-] & Hstarter & _).
           apply Htype in Hstarter. congruence.
        -- intros [H | H]; discriminate.
        -- intros u _ [H | H]; discriminate.
        -- intros e [= <-]. eauto.
Qed.

(** The admin of the starter organization passes; nobody passes on a premium
    organization, and an unknown organization is refused as forbidden. *)
Example checkUserIsAdminOnStarterOrg_samples :
  StarterAuthzService.checkUserIsAdminOnStarterOrg Fixture.findById
    (Fixture.requestOf Sample.orgAdmin)
    (OrganizationAccount.id Fixture.starterOrg)
  = Value (AuthenticatedUser.mk Sample.orgAdmin, Fixture.starterOrg)
  /\ StarterAuthzService.checkUserIsAdminOnStarterOrg Fixture.findById
       (Fixture.requestOf Sample.orgAdmin) (OrganizationAccount.id Sample.org)
     = Raise (Http (ForbiddenException
                      "Organization Account must be of type starter."))
  /\ StarterAuthzService.checkUserIsAdminOnStarterOrg Fixture.findById
       (Fixture.requestOf Sample.orgUser)
       (OrganizationAccount.id Fixture.starterOrg)
     = Raise (Http (ForbiddenException
                      "User must be at least admin in the organization."))
  /\ StarterAuthzService.checkUserIsAdminOnStarterOrg Fixture.findById
       (Fixture.requestOf Sample.siteAdmin) (Sample.oid "000000000000000000000000")
     = Raise (Http (ForbiddenException
                      "Organization 000000000000000000000000 not allowed.")).
Proof. repeat split. Qed.

(** ** Organization members: lookup, update, removal *)

Lemma ObjectId_equals_eq (a b : ObjectId.t) :
  ObjectId.equals a b = true <-> ObjectId.hex a = ObjectId.hex b.
Proof. apply String.eqb_eq. Qed.

Lemma ObjectId_equals_other (a uid other : ObjectId.t) :
  ObjectId.equals a uid = true -> ObjectId.equals other uid = false ->
  ObjectId.equals a other = false.
Proof.
  unfold ObjectId.equals. intros H1 H2.
  apply String.eqb_eq in H1. apply String.eqb_neq in H2.
  apply String.eqb_neq. congruence.
Qed.

Lemma NoDup_map_eq {A B : Type} (f : A -> B) (l : list A) (a b : A) :
  NoDup (map f l) -> In a l -> In b l -> f a = f b -> a = b.
Proof.
  induction l as [|x l IH]; simpl; intros Hnd Ha Hb Hf; [contradiction |].
  inversion Hnd as [|? ? Hnotin Hrest]; subst.
  destruct Ha as [<- | Ha], Hb as [<- | Hb]; auto.
  - destruct Hnotin. rewrite Hf. apply in_map. exact Hb.
  - destruct Hnotin. rewrite <- Hf. apply in_map. exact Ha.
Qed.

(** X7. [hasAdminMember] agrees with the validator: whoever passes
    [checkMember(user, ADMIN)] is an admin member, and when no user has two
    membership entries the converse holds as well. *)
Theorem hasAdminMember_checkMember :
  forall (d : OrganizationAccountDocument.t) (user : AuthenticatedUser.t),
    let v := OrgValidator.mk (OrganizationAccountDocument.account d) in
    let userId := UserDocument._id (AuthenticatedUser.userDoc user) in
    (OrgValidator.checkMember v user OrganizationRole.ADMIN = Return v ->
     OrganizationAccountService.hasAdminMember d userId = true)
    /\ (NoDup (map (fun m => ObjectId.hex (UserDocument._id (Member.user m)))
                 (OrganizationAccountDocument.members d)) ->
        OrganizationAccountService.hasAdminMember d userId = true ->
        OrgValidator.checkMember v user OrganizationRole.ADMIN = Return v).
Proof.
  intros d user v userId. unfold OrganizationAccountService.hasAdminMember.
  split.
  - intros Hpass. apply checkMember_ADMIN_iff in Hpass.
    destruct Hpass as (m & Hm & Hrole).
    apply arrayFind_some in Hm. destruct Hm as [Hin Hmatch].
    apply existsb_exists. exists m. split; [exact Hin |].
    fold userId in Hmatch. rewrite Hmatch. simpl.
    destruct Hrole as [-> | ->]; reflexivity.
  - intros Hnd Hhas. apply existsb_exists in Hhas.
    destruct Hhas as (m & Hin & Hm). apply andb_true_iff in Hm.
    destruct Hm as [Hmatch Hrole].
    apply checkMember_ADMIN_iff.
    destruct (arrayFind_exists
                (fun m0 => ObjectId.equals (UserDocument._id (Member.user m0)) userId)
                (OrganizationAccountDocument.members d) m Hin Hmatch)
      as [m' Hfind].
    exists m'. split; [exact Hfind |].
    apply arrayFind_some in Hfind. destruct Hfind as [Hin' Hmatch'].
    assert (m' = m) as ->.
    { apply (NoDup_map_eq _ _ _ _ Hnd Hin' Hin).
      apply ObjectId_equals_eq in Hmatch, Hmatch'. congruence. }
    destruct (Member.role m); simpl in Hrole; auto; discriminate.
Qed.

Lemma hasAdminMember_checkMember_witness :
  OrganizationAccountService.hasAdminMember Fixture.orgDocument
    (UserDocument._id Sample.orgAdmin) = true.
Proof.
  apply (proj1 (hasAdminMember_checkMember Fixture.orgDocument
                  (AuthenticatedUser.mk Sample.orgAdmin))).
  reflexivity.
Defined.

Section MemberUpdates.

Variable save : OrganizationAccountDocument.t -> Outcome OrganizationAccountDocument.t.

Local Abbreviation isUser uid :=
  (fun m : Member.t => ObjectId.equals (UserDocument._id (Member.user m)) uid).

Lemma setRoleAt_users (i : nat) (r : OrganizationRole) (l : list Member.t) :
  map Member.user (setRoleAt i r l) = map Member.user l.
Proof.
  revert i. induction l as [|m l IH]; intros [|i]; simpl; try reflexivity.
  rewrite IH. reflexivity.
Qed.

Lemma find_after_setRole (uid : ObjectId.t) (r : OrganizationRole)
    (l : list Member.t) (m : Member.t) :
  arrayFind (isUser uid) l = JsVal m ->
  arrayFind (isUser uid) (setRoleAt (indexOfFirst (isUser uid) l) r l)
  = JsVal (Member.mk (Member.user m) r).
Proof.
  induction l as [|x l IH]; simpl; [discriminate |].
  destruct (ObjectId.equals (UserDocument._id (Member.user x)) uid) eqn:E; simpl.
  - intros [= <-]. rewrite E. reflexivity.
  - intros H. rewrite E. apply IH. exact H.
Qed.

Lemma find_other_after_setRole (uid other : ObjectId.t) (r : OrganizationRole)
    (l : list Member.t) :
  ObjectId.equals other uid = false ->
  arrayFind (isUser other) (setRoleAt (indexOfFirst (isUser uid) l) r l)
  = arrayFind (isUser other) l.
Proof.
  intros Hother. induction l as [|x l IH]; simpl; [reflexivity |].
  destruct (ObjectId.equals (UserDocument._id (Member.user x)) uid) eqn:E; simpl.
  - rewrite (ObjectId_equals_other _ _ _ E Hother). reflexivity.
  - rewrite IH. reflexivity.
Qed.

Lemma find_after_remove (uid : ObjectId.t) (l : list Member.t) :
  arrayFind (isUser uid) (OrganizationAccountService.withoutUser uid l)
  = JsUndefined.
Proof.
  apply arrayFind_none. intros m Hin.
  apply filter_In in Hin. destruct Hin as [_ H].
  apply negb_true_iff in H. exact H.
Qed.

Lemma find_other_after_remove (uid other : ObjectId.t) (l : list Member.t) :
  ObjectId.equals other uid = false ->
  arrayFind (isUser other) (OrganizationAccountService.withoutUser uid l)
  = arrayFind (isUser other) l.
Proof.
  intros Hother. induction l as [|x l IH]; simpl; [reflexivity |].
  destruct (ObjectId.equals (UserDocument._id (Member.user x)) uid) eqn:E; simpl.
  - rewrite (ObjectId_equals_other _ _ _ E Hother). exact IH.
  - rewrite IH. reflexivity.
Qed.

(** X8. [updateUsersOrganizationRole] never grants SUPER_ADMIN: that role is
    refused with [ForbiddenException] even for a member; a missing role is a
    [BadRequestException]; an allowed role for a user without membership
    entry is a [NotFoundException]. In none of these cases is the
    organization saved. *)
Theorem updateUsersOrganizationRole_rejections :
  forall (organization : OrganizationAccountDocument.t) (userId : ObjectId.t)
         (role : Nullable OrganizationRole),
    let result :=
      OrganizationAccountService.updateUsersOrganizationRole save organization
        userId role in
    ((role = JsNull \/ role = JsUndefined) ->
     result = Raise (Http (BadRequestException "Role must be provided")))
    /\ (role = JsVal OrganizationRole.SUPER_ADMIN ->
        result = Raise (Http (ForbiddenException "Role not allowed: superAdmin")))
    /\ (forall r, role = JsVal r -> r <> OrganizationRole.SUPER_ADMIN ->
          (forall m, In m (OrganizationAccountDocument.members organization) ->
             ObjectId.equals (UserDocument._id (Member.user m)) userId = false) ->
          result = Raise (NotFoundException
                            ("User " ++ ObjectId.hex userId
                               ++ " is not a member in organization "
                               ++ OrganizationAccountDocument.name organization
                               ++ "."))).
Proof.
  intros organization userId role.
  unfold OrganizationAccountService.updateUsersOrganizationRole.
  split; [| split].
  - intros [-> | ->]; reflexivity.
  - intros ->. reflexivity.
  - intros r -> Hr Hnone. apply arrayFind_none in Hnone.
    rewrite Hnone. destruct r; try reflexivity. congruence.
Qed.

(** X9. Updating a member's role and looking it up again: for an allowed
    role and a user with a membership entry, the document handed to [save]
    lists the same users in the same order; the user then passes
    [checkMember] exactly at the levels the new role reaches; and the
    membership entry of every other user is what it was. *)
Theorem updateUsersOrganizationRole_round_trip :
  forall (organization : OrganizationAccountDocument.t) (userId : ObjectId.t)
         (r : OrganizationRole) (m : Member.t),
    r <> OrganizationRole.SUPER_ADMIN ->
    arrayFind (isUser userId) (OrganizationAccountDocument.members organization)
    = JsVal m ->
    exists updated,
      OrganizationAccountService.updateUsersOrganizationRole save organization
        userId (JsVal r) = save updated
      /\ OrganizationAccountDocument.name updated
         = OrganizationAccountDocument.name organization
      /\ OrganizationAccountDocument.modules updated
         = OrganizationAccountDocument.modules organization
      /\ map Member.user (OrganizationAccountDocument.members updated)
         = map Member.user (OrganizationAccountDocument.members organization)
      /\ (forall user minRole,
            UserDocument._id (AuthenticatedUser.userDoc user) = userId ->
            let v := OrgValidator.mk (OrganizationAccountDocument.account updated) in
            OrgValidator.checkMember v user minRole = Return v
            <-> isRoleAtLeast (JsVal r) (JsVal minRole) = true)
      /\ (forall user,
            ObjectId.equals (UserDocument._id (AuthenticatedUser.userDoc user))
              userId = false ->
            OrgValidator.membershipOf
              (OrgValidator.mk (OrganizationAccountDocument.account updated)) user
            = OrgValidator.membershipOf
                (OrgValidator.mk (OrganizationAccountDocument.account organization))
                user).
Proof.
  intros organization userId r m Hr Hfind.
  exists (OrganizationAccountDocument.withMembers organization
            (setRoleAt
               (indexOfFirst (isUser userId)
                  (OrganizationAccountDocument.members organization))
               r (OrganizationAccountDocument.members organization))).
  split; [| split; [| split; [| split; [| split]]]].
  - unfold OrganizationAccountService.updateUsersOrganizationRole.
    rewrite Hfind. destruct r; try reflexivity. congruence.
  - reflexivity.
  - reflexivity.
  - apply setRoleAt_users.
  - intros user minRole Hid v. unfold v. rewrite checkMember_pass_iff.
    unfold OrgValidator.membershipOf. simpl. rewrite Hid.
    rewrite (find_after_setRole _ _ _ _ Hfind). reflexivity.
  - intros user Hother. unfold OrgValidator.membershipOf. simpl.
    apply find_other_after_setRole. exact Hother.
Qed.

(** X10. Removing a user and looking the user up again: the document handed
    to [save] has no membership entry of the user, who then fails
    [checkMember] at every level; every other user keeps the membership
    entry found before; and removing a user without entry changes nothing. *)
Theorem removeUserFromOrganization_round_trip :
  forall (organization : OrganizationAccountDocument.t) (userId : ObjectId.t),
    let remaining :=
      OrganizationAccountDocument.withMembers organization
        (OrganizationAccountService.withoutUser userId
           (OrganizationAccountDocument.members organization)) in
    OrganizationAccountService.removeUserFromOrganization save organization userId
    = save remaining
    /\ (forall user minRole,
          UserDocument._id (AuthenticatedUser.userDoc user) = userId ->
          isForbidden
            (OrgValidator.checkMember
               (OrgValidator.mk (OrganizationAccountDocument.account remaining))
               user minRole) = true)
    /\ (forall user,
          ObjectId.equals (UserDocument._id (AuthenticatedUser.userDoc user))
            userId = false ->
          OrgValidator.membershipOf
            (OrgValidator.mk (OrganizationAccountDocument.account remaining)) user
          = OrgValidator.membershipOf
              (OrgValidator.mk (OrganizationAccountDocument.account organization))
              user)
    /\ ((forall m, In m (OrganizationAccountDocument.members organization) ->
           ObjectId.equals (UserDocument._id (Member.user m)) userId = false) ->
        remaining = organization).
Proof.
  intros organization userId remaining.
  split; [reflexivity |]. split; [| split].
  - intros user minRole Hid.
    unfold OrgValidator.checkMember, OrgValidator.membershipOf. simpl.
    rewrite Hid, find_after_remove. destruct minRole; reflexivity.
  - intros user Hother. unfold OrgValidator.membershipOf. simpl.
    apply find_other_after_remove. exact Hother.
  - intros Hnone. unfold remaining, OrganizationAccountDocument.withMembers.
    assert (Hsame : OrganizationAccountService.withoutUser userId
                      (OrganizationAccountDocument.members organization)
                    = OrganizationAccountDocument.members organization).
    { unfold OrganizationAccountService.withoutUser.
      apply forallb_filter_id. apply forallb_forall. intros m Hin.
      rewrite (Hnone m Hin). reflexivity. }
    rewrite Hsame. destruct organization as [[id ty ms] nm mods]. reflexivity.
Qed.

End MemberUpdates.

Lemma updateUsersOrganizationRole_round_trip_witness :
  exists updated,
    OrganizationAccountService.updateUsersOrganizationRole Fixture.saveDocument
      Fixture.orgDocument (UserDocument._id Sample.orgGuest)
      (JsVal OrganizationRole.ADMIN) = Fixture.saveDocument updated
    /\ map Member.user (OrganizationAccountDocument.members updated)
       = [Sample.orgAdmin; Sample.orgUser; Sample.orgGuest].
Proof.
  destruct (updateUsersOrganizationRole_round_trip Fixture.saveDocument
              Fixture.orgDocument (UserDocument._id Sample.orgGuest)
              OrganizationRole.ADMIN
              (Member.mk Sample.orgGuest OrganizationRole.GUEST))
    as (updated & Hsave & _ & _ & Husers & _); [discriminate | reflexivity |].
  exists updated. split; [exact Hsave | exact Husers].
Defined.

(** ** Default modules and the impact model *)

Section DefaultModules.

Variable defaults : list OrganizationAccountModule.t.

Local Abbreviation hasModule n ms :=
  (existsb
     (fun module =>
        OrganizationModules.eqb (OrganizationAccountModule.name module) n)
     ms).
Local Abbreviation addAll := (OrganizationAccountService.addDefaultModulesOf defaults).

Lemma OrganizationModules_eqb_refl (n : OrganizationModules.t) :
  OrganizationModules.eqb n n = true.
Proof. destruct n; simpl; auto using String.eqb_refl. Qed.

Lemma addDefaultModule_extends ms dm :
  exists added,
    OrganizationAccountService.addDefaultModule ms dm = (ms ++ added)%list
    /\ incl added [dm].
Proof.
  unfold OrganizationAccountService.addDefaultModule.
  destruct (negb _).
  - exists [dm]. split; [reflexivity | apply incl_refl].
  - exists []. split; [rewrite app_nil_r; reflexivity | intros x []].
Qed.

Lemma addDefaultModule_keeps n ms dm :
  hasModule n ms = true ->
  hasModule n (OrganizationAccountService.addDefaultModule ms dm) = true.
Proof.
  intros H. destruct (addDefaultModule_extends ms dm) as (added & -> & _).
  rewrite existsb_app, H. reflexivity.
Qed.

Lemma addDefaultModule_has ms dm :
  hasModule (OrganizationAccountModule.name dm)
    (OrganizationAccountService.addDefaultModule ms dm) = true.
Proof.
  unfold OrganizationAccountService.addDefaultModule.
  destruct (existsb _ ms) eqn:E; simpl; [exact E |].
  rewrite existsb_app. simpl. rewrite OrganizationModules_eqb_refl.
  apply orb_true_iff. right. reflexivity.
Qed.

Lemma addDefaultModule_present ms dm :
  hasModule (OrganizationAccountModule.name dm) ms = true ->
  OrganizationAccountService.addDefaultModule ms dm = ms.
Proof.
  unfold OrganizationAccountService.addDefaultModule. intros ->. reflexivity.
Qed.

Lemma fold_addDefaultModule_keeps n ds ms :
  hasModule n ms = true ->
  hasModule n (fold_left OrganizationAccountService.addDefaultModule ds ms) = true.
Proof.
  revert ms. induction ds as [|dm ds IH]; intros ms H; simpl; [exact H |].
  apply IH, addDefaultModule_keeps, H.
Qed.

Lemma fold_addDefaultModule_present ds ms :
  (forall dm, In dm ds -> hasModule (OrganizationAccountModule.name dm) ms = true) ->
  fold_left OrganizationAccountService.addDefaultModule ds ms = ms.
Proof.
  revert ms. induction ds as [|dm ds IH]; intros ms H; simpl; [reflexivity |].
  rewrite addDefaultModule_present by (apply H; left; reflexivity).
  apply IH. intros dm' Hin. apply H. right. exact Hin.
Qed.

Lemma fold_addDefaultModule_has ds ms dm :
  In dm ds ->
  hasModule (OrganizationAccountModule.name dm)
    (fold_left OrganizationAccountService.addDefaultModule ds ms) = true.
Proof.
  revert ms. induction ds as [|d ds IH]; intros ms Hin; [destruct Hin |].
  simpl. destruct Hin as [-> | Hin].
  - apply fold_addDefaultModule_keeps, addDefaultModule_has.
  - apply IH, Hin.
Qed.

Lemma fold_addDefaultModule_extends ds ms :
  exists added,
    fold_left OrganizationAccountService.addDefaultModule ds ms = (ms ++ added)%list
    /\ incl added ds.
Proof.
  revert ms. induction ds as [|d ds IH]; intros ms; simpl.
  - exists []. split; [rewrite app_nil_r; reflexivity | apply incl_refl].
  - destruct (addDefaultModule_extends ms d) as (a1 & -> & H1).
    destruct (IH (ms ++ a1)%list) as (a2 & -> & H2).
    exists (a1 ++ a2)%list. split; [rewrite app_assoc; reflexivity |].
    apply incl_app.
    + intros x Hx. destruct (H1 x Hx) as [<- | []]. left. reflexivity.
    + apply incl_tl, H2.
Qed.

(** X11. [addDefaultModules], for whatever default modules the service holds:
    the given modules stay in front unchanged and only default modules are
    appended; afterwards every default module's name is present; modules that
    already name every default stay as they are; and adding the defaults a
    second time adds nothing. *)
Theorem addDefaultModules_spec :
  forall modules : list OrganizationAccountModule.t,
    (exists added, addAll modules = (modules ++ added)%list /\ incl added defaults)
    /\ (forall dm, In dm defaults ->
          hasModule (OrganizationAccountModule.name dm) (addAll modules) = true)
    /\ ((forall dm, In dm defaults ->
           hasModule (OrganizationAccountModule.name dm) modules = true) ->
        addAll modules = modules)
    /\ addAll (addAll modules) = addAll modules.
Proof.
  intros modules. unfold OrganizationAccountService.addDefaultModulesOf.
  split; [apply fold_addDefaultModule_extends |].
  split; [intros dm Hin; apply fold_addDefaultModule_has, Hin |].
  split; [apply fold_addDefaultModule_present |].
  apply fold_addDefaultModule_present.
  intros dm Hin. apply fold_addDefaultModule_has, Hin.
Qed.

End DefaultModules.

Lemma arrayFind_app {A : Type} (p : A -> bool) (l1 l2 : list A) :
  arrayFind p (l1 ++ l2)
  = match arrayFind p l1 with
    | JsVal x => JsVal x
    | _ => arrayFind p l2
    end.
Proof.
  induction l1 as [|x l1 IH]; simpl.
  - destruct (arrayFind p l2); reflexivity.
  - destruct (p x); [reflexivity | exact IH].
Qed.

Lemma arrayFind_existsb {A : Type} (p : A -> bool) (l : list A) :
  existsb p l = false -> arrayFind p l = JsUndefined.
Proof.
  intros H. apply arrayFind_none. intros x Hin.
  destruct (p x) eqn:E; [| reflexivity].
  assert (existsb p l = true) by (apply existsb_exists; eauto). congruence.
Qed.

(** X12. The impact model read after [addDefaultModules]: modules without
    an IMPACT_MODEL module get the default model v1.6, and modules that have
    one give the answer they gave before the defaults were added. *)
Theorem impact_model_after_defaults :
  forall (account : OrganizationAccount.t) (name : string)
         (modules : list OrganizationAccountModule.t),
    let isImpactModel module :=
      OrganizationModules.eqb (OrganizationAccountModule.name module)
        OrganizationModules.IMPACT_MODEL in
    OrganizationAccountService.getImpactCalculationModelByOrg
      (OrganizationAccountDocument.mk account name
         (OrganizationAccountService.addDefaultModules modules))
    = if existsb isImpactModel modules
      then OrganizationAccountService.getImpactCalculationModelByOrg
             (OrganizationAccountDocument.mk account name modules)
      else Value ImpactCalculationModels.V1_6.
Proof.
  intros account name modules isImpactModel.
  unfold OrganizationAccountService.getImpactCalculationModelByOrg. simpl.
  fold isImpactModel.
  destruct (existsb isImpactModel modules) eqn:Hhas.
  - destruct (fold_addDefaultModule_extends
                OrganizationAccountService.defaultModules modules)
      as (added & Hadded & _).
    unfold OrganizationAccountService.addDefaultModules,
      OrganizationAccountService.addDefaultModulesOf.
    rewrite Hadded, arrayFind_app.
    apply existsb_exists in Hhas. destruct Hhas as (m & Hin & Hm).
    destruct (arrayFind_exists isImpactModel modules m Hin Hm) as [m' ->].
    reflexivity.
  - pose proof (arrayFind_existsb _ _ Hhas) as Hnone.
    destruct (fold_addDefaultModule_extends
                OrganizationAccountService.defaultModules modules)
      as (added & Hadded & Hincl).
    pose proof (fold_addDefaultModule_has
                  OrganizationAccountService.defaultModules modules
                  (OrganizationAccountModule.mk OrganizationModules.IMPACT_MODEL
                     [ImpactCalculationModels.V1_6])) as Hpresent.
    unfold OrganizationAccountService.addDefaultModules,
      OrganizationAccountService.addDefaultModulesOf.
    rewrite Hadded in *. rewrite arrayFind_app, Hnone.
    simpl OrganizationAccountModule.name in Hpresent. fold isImpactModel in Hpresent.
    rewrite existsb_app, Hhas in Hpresent. simpl in Hpresent.
    assert (Hin : In (OrganizationAccountModule.mk OrganizationModules.IMPACT_MODEL
                        [ImpactCalculationModels.V1_6])
                     OrganizationAccountService.defaultModules)
      by (simpl; tauto).
    specialize (Hpresent Hin). apply existsb_exists in Hpresent.
    destruct Hpresent as (m & Hm & Himpact).
    destruct (arrayFind_exists isImpactModel added m Hm Himpact) as [m' Hfind].
    rewrite Hfind. apply arrayFind_some in Hfind.
    destruct Hfind as [Hm' Himpact']. apply Hincl in Hm'.
    simpl in Hm'.
    destruct Hm' as [<- | [<- | [<- | [<- | [<- | []]]]]];
      try discriminate Himpact'.
    reflexivity.
Qed.

(** ** Comparing identifiers *)

(** X13. Two strings are equal identifiers exactly when they are the same
    non-empty string; and, for a driver whose [equals] is symmetric on
    [ObjectId]s, the order of the two arguments never matters, whatever mix
    of strings, [ObjectId]s and missing values they are. *)
Theorem isObjectIdsEquals_symmetric :
  forall (bsonEquals : ObjectId.t -> IdValue -> bool),
    (forall s o : string,
       isObjectIdsEquals bsonEquals (IdString s) (IdString o) = Return true
       <-> s = o /\ s <> "")
    /\ ((forall a b, bsonEquals a (IdObjectId b) = bsonEquals b (IdObjectId a)) ->
        forall value other,
          isObjectIdsEquals bsonEquals value other
          = isObjectIdsEquals bsonEquals other value).
Proof.
  intros eq. split.
  - intros s o. unfold isObjectIdsEquals. simpl.
    destruct (String.eqb s "") eqn:Es; simpl.
    + apply String.eqb_eq in Es. split; [discriminate | tauto].
    + apply String.eqb_neq in Es.
      destruct (String.eqb o "") eqn:Eo; simpl.
      * apply String.eqb_eq in Eo. split; [discriminate | intros [-> _]; tauto].
      * destruct (String.eqb s o) eqn:E.
        -- apply String.eqb_eq in E. tauto.
        -- apply String.eqb_neq in E. split; [discriminate | tauto].
  - intros Hsym value other.
    destruct value as [| |v|v|], other as [| |o|o|];
      unfold isObjectIdsEquals; simpl; try reflexivity;
      try (destruct (String.eqb v ""); reflexivity);
      try (destruct (String.eqb o ""); reflexivity).
    + destruct (String.eqb v ""), (String.eqb o ""); simpl; try reflexivity.
      rewrite String.eqb_sym. reflexivity.
    + rewrite Hsym. reflexivity.
Qed.

Lemma isObjectIdsEquals_symmetric_witness :
  isObjectIdsEquals (fun o v => match v with
                                | IdString s => String.eqb (ObjectId.hex o) s
                                | IdObjectId o' => ObjectId.equals o o'
                                | _ => false
                                end)
    (IdString "5d492ebfcaa0a917504481df")
    (IdObjectId (ObjectId.mk "5d492ebfcaa0a917504481df"))
  = isObjectIdsEquals (fun o v => match v with
                                  | IdString s => String.eqb (ObjectId.hex o) s
                                  | IdObjectId o' => ObjectId.equals o o'
                                  | _ => false
                                  end)
      (IdObjectId (ObjectId.mk "5d492ebfcaa0a917504481df"))
      (IdString "5d492ebfcaa0a917504481df").
Proof.
  apply (proj2 (isObjectIdsEquals_symmetric _)).
  intros a b. apply String.eqb_sym.
Defined.

(** ** The entries of the summary *)

Section SummaryEntries.
Context {num : Type} (add : num -> num -> num) (zero : num).

Lemma entries_keys {V : Type} (props : list (string * V)) :
  Permutation (map fst (objectEntries props)) (map fst props).
Proof. apply Permutation_map, objectEntries_perm. Qed.

Lemma groupBy_keys_iff {A : Type} (key : A -> string) (l : list A) (k : string) :
  In k (map fst (groupBy l key)) <-> exists x, In x l /\ key x = k.
Proof.
  destruct (groupBy_spec key l) as (_ & Hkeys & Hgroups). split.
  - intros Hin. apply in_map_iff in Hin. destruct Hin as ([k' g] & <- & Hin).
    destruct (Hgroups _ _ Hin) as [Hg Hne]. simpl.
    destruct g as [|x g]; [congruence |].
    assert (Hx : In x (groupOf key k' l)) by (rewrite <- Hg; left; reflexivity).
    apply filter_In in Hx. destruct Hx as [Hx Hk].
    apply String.eqb_eq in Hk. eauto.
  - intros (x & Hx & <-). apply Hkeys, Hx.
Qed.

Lemma category_names (g : list (CalculatedImpact.t num)) :
  map EmissionsByCategory.category (getEmissionsByCategory add zero g)
  = map fst (objectEntries (groupBy g categoryKey)).
Proof.
  unfold getEmissionsByCategory. rewrite map_map.
  apply map_ext. intros [k g']. reflexivity.
Qed.

Lemma scope_names (l : list (CalculatedImpact.t num)) :
  map EmissionsByScope.scope
    (EmissionCalculation.emissionsByScope (aggregateImpacts add zero l))
  = map fst (objectEntries (groupBy l scopeKey)).
Proof.
  unfold aggregateImpacts. simpl. rewrite map_map.
  apply map_ext. intros [k g]. reflexivity.
Qed.

(** X14. The summary has exactly one scope entry for each scope key that
    occurs among the records, and each scope entry has exactly one category
    entry for each category key that occurs among the records of that scope;
    no entry is empty and none is repeated. *)
Theorem summary_entries :
  forall l : list (CalculatedImpact.t num),
    let scopes :=
      EmissionCalculation.emissionsByScope (aggregateImpacts add zero l) in
    NoDup (map EmissionsByScope.scope scopes)
    /\ (forall k, In k (map EmissionsByScope.scope scopes)
                  <-> exists x, In x l /\ scopeKey x = k)
    /\ (forall e, In e scopes ->
          let categories := EmissionsByScope.categoryBreakdown e in
          NoDup (map EmissionsByCategory.category categories)
          /\ categories <> []
          /\ (forall c, In c (map EmissionsByCategory.category categories)
                        <-> exists x, In x l
                              /\ scopeKey x = EmissionsByScope.scope e
                              /\ categoryKey x = c)).
Proof.
  intros l scopes. unfold scopes. rewrite scope_names.
  split; [| split].
  - apply (Permutation_NoDup (Permutation_sym (entries_keys _))).
    apply (groupBy_spec scopeKey l).
  - intros k. rewrite <- groupBy_keys_iff. split; apply Permutation_in;
      [apply entries_keys | symmetry; apply entries_keys].
  - intros e Hin. cbv zeta.
    destruct (scope_entry_inv add zero l e Hin) as (g & Hg & Hgeq & _ & ->).
    rewrite category_names. split; [| split].
    + apply (Permutation_NoDup (Permutation_sym (entries_keys _))).
      apply (groupBy_spec categoryKey g).
    + destruct (groupBy_spec scopeKey l) as (_ & _ & Hgroups).
      destruct (Hgroups _ _ Hg) as [_ Hne].
      destruct g as [|x g]; [congruence |].
      destruct (groupBy_In categoryKey (x :: g) x (or_introl eq_refl))
        as (gc & Hgc & _).
      intros Hnil.
      pose proof (category_entry_of_group add zero (x :: g) _ _ Hgc) as Hc.
      rewrite Hnil in Hc. destruct Hc.
    + intros c.
      assert (Hkeys : In c (map fst (objectEntries (groupBy g categoryKey)))
                      <-> In c (map fst (groupBy g categoryKey))).
      { split; apply Permutation_in;
          [apply entries_keys | symmetry; apply entries_keys]. }
      rewrite Hkeys, groupBy_keys_iff. subst g. unfold groupOf. split.
      * intros (x & Hx & Hc). apply filter_In in Hx. destruct Hx as [Hx Hs].
        apply String.eqb_eq in Hs. eauto.
      * intros (x & Hx & Hs & Hc). exists x. split; [| exact Hc].
        apply filter_In. split; [exact Hx | apply String.eqb_eq, Hs].
Qed.

End SummaryEntries.



(** ** Completion of data sources: failures and composition *)

Lemma rejections_app {A : Type} (ps qs : list (Result A)) :
  rejections (ps ++ qs) = (rejections ps ++ rejections qs)%list.
Proof.
  induction ps as [|[e | a] ps IH]; simpl; [reflexivity | | exact IH].
  rewrite IH. reflexivity.
Qed.

Lemma fulfilled_app {A : Type} (ps qs : list (Result A)) :
  fulfilled (ps ++ qs) = (fulfilled ps ++ fulfilled qs)%list.
Proof.
  induction ps as [|[e | a] ps IH]; simpl; [reflexivity | exact IH |].
  rewrite IH. reflexivity.
Qed.

Lemma promiseAll_Return {A : Type} (settlesFirst : list Exception -> nat)
    (ps : list (Result A)) (vs : list A) :
  promiseAll settlesFirst ps = Return vs ->
  rejections ps = [] /\ vs = fulfilled ps.
Proof.
  unfold promiseAll. destruct (rejections ps); [| discriminate].
  intros [= <-]. auto.
Qed.

Lemma promiseAll_Throw {A : Type} (settlesFirst : list Exception -> nat)
    (ps : list (Result A)) :
  rejections ps <> [] ->
  exists e, promiseAll settlesFirst ps = Throw e /\ In e (rejections ps).
Proof.
  unfold promiseAll. destruct (rejections ps) as [|e others]; [congruence |].
  intros _. eexists. split; [reflexivity |].
  destruct (Nat.lt_ge_cases (settlesFirst (e :: others)) (List.length (e :: others)))
    as [Hlt | Hge].
  - apply nth_In. exact Hlt.
  - rewrite nth_overflow by exact Hge. left. reflexivity.
Qed.

Lemma rejections_In {A B : Type} (f : A -> Result B) (l : list A) (e : Exception) :
  In e (rejections (map f l)) <-> exists x, In x l /\ f x = Throw e.
Proof.
  induction l as [|x l IH]; simpl.
  - split; [intros [] | intros (x & [] & _)].
  - destruct (f x) as [e' | b] eqn:Hx; simpl; rewrite ?IH; split.
    + intros [<- | (y & Hy & Hf)]; eauto.
    + intros (y & [<- | Hy] & Hf); [left; congruence | eauto].
    + intros (y & Hy & Hf). eauto.
    + intros (y & [<- | Hy] & Hf); [congruence | eauto].
Qed.

Section CompleteFurther.

Variable settlesFirst : list Exception -> nat.
Variable getDataSource : string -> ObjectId.t -> Result DataSource.t.
Variable authToken : string.

Local Abbreviation isComplete :=
  (isCalculationCompleteForDataSources settlesFirst getDataSource authToken).

(** X16. A failing lookup is not taken for an incomplete calculation: when
    the lookup of some id throws, the whole call throws, and what it throws
    is the exception of one of the failing lookups, whatever the statuses of
    the others; when one lookup alone fails, it is that lookup's exception. *)
Theorem lookup_failure_propagates :
  forall (ids : list ObjectId.t) (id : ObjectId.t) (e : Exception),
    In id ids ->
    getDataSource authToken id = Throw e ->
    (exists e' id',
       isComplete ids = Throw e'
       /\ In id' ids /\ getDataSource authToken id' = Throw e')
    /\ ((forall id' e', In id' ids ->
           getDataSource authToken id' = Throw e' -> e' = e) ->
        isComplete ids = Throw e).
Proof.
  intros ids id e Hin Hid.
  assert (Hrej : rejections (map (fun i => getDataSource authToken i) ids) <> []).
  { intros Hnone.
    assert (H : In e (rejections (map (fun i => getDataSource authToken i) ids)))
      by (apply rejections_In; eauto).
    rewrite Hnone in H. destruct H. }
  destruct (promiseAll_Throw settlesFirst _ Hrej) as (e' & Hthrow & He').
  apply rejections_In in He'. destruct He' as (id' & Hin' & Hid').
  unfold isCalculationCompleteForDataSources. rewrite Hthrow. simpl. split.
  - exists e', id'. auto.
  - intros Honly. rewrite (Honly id' e' Hin' Hid'). reflexivity.
Qed.

(** X17. Completion composes: when two lists of data sources each get an
    answer, their concatenation is complete exactly when both are. *)
Theorem complete_app :
  forall (ids1 ids2 : list ObjectId.t) (b1 b2 : bool),
    isComplete ids1 = Return b1 ->
    isComplete ids2 = Return b2 ->
    isComplete (ids1 ++ ids2) = Return (b1 && b2).
Proof.
  intros ids1 ids2 b1 b2. unfold isCalculationCompleteForDataSources.
  destruct (promiseAll settlesFirst (map _ ids1)) as [e1 | ds1] eqn:H1;
    simpl; [discriminate |].
  destruct (promiseAll settlesFirst (map _ ids2)) as [e2 | ds2] eqn:H2;
    simpl; [discriminate |].
  apply promiseAll_Return in H1, H2.
  destruct H1 as [Hr1 ->], H2 as [Hr2 ->].
  intros [= <-] [= <-]. unfold promiseAll.
  rewrite map_app, rejections_app, fulfilled_app, Hr1, Hr2. simpl.
  rewrite forallb_app. reflexivity.
Qed.

End CompleteFurther.

Lemma lookup_failure_propagates_witness :
  isCalculationCompleteForDataSources Sample.settlesFirst Sample.getDataSource
    "auth_token" [Sample.oid "a"; Sample.oid "zz"; Sample.oid "c"]
  = Throw (ExternalError "Not Found").
Proof.
  apply (proj2 (lookup_failure_propagates Sample.settlesFirst
                  Sample.getDataSource "auth_token"
                  [Sample.oid "a"; Sample.oid "zz"; Sample.oid "c"]
                  (Sample.oid "zz") (ExternalError "Not Found")
                  (or_intror (or_introl eq_refl)) eq_refl)).
  intros id' e' [<- | [<- | [<- | []]]] H; vm_compute in H; congruence.
Defined.

Lemma complete_app_witness :
  isCalculationCompleteForDataSources Sample.settlesFirst Sample.getDataSource
    "auth_token" ([Sample.oid "a"; Sample.oid "b"] ++ [Sample.oid "c"])
  = Return (true && false).
Proof.
  apply (complete_app Sample.settlesFirst Sample.getDataSource "auth_token");
    reflexivity.
Defined.

(** Of two failing lookups either exception can be the one thrown: it is the
    one of the lookup that fails first in time, first in the array or not. *)
Example promiseAll_settle_order :
  let lookups : list (Result DataSource.t) :=
    [ Throw (ExternalError "yy"); Return (DataSource.mk (Sample.oid "a") "succeeded");
      Throw (ExternalError "zz") ] in
  promiseAll (fun _ => 0%nat) lookups = Throw (ExternalError "yy")
  /\ promiseAll (fun _ => 1%nat) lookups = Throw (ExternalError "zz").
Proof. split; reflexivity. Qed.

(** ** Invitation: validation, outsiders, members, success *)

Section InviteFurther.

Variable findOneByEmail : string -> Nullable UserDocument.t.
Variable inviteNonLocalUser : string -> string -> string -> Result UserDocument.t.
Variable save : OrganizationAccount.t -> Result OrganizationAccount.t.

Local Abbreviation invite :=
  (inviteUserToOrganization findOneByEmail inviteNonLocalUser save).

(** X18. An invitation without name, e-mail or role is a
    [BadRequestException] for every inviter, a site admin too, and whatever
    the organization and the user collection hold. *)
Theorem invite_requires_properties :
  forall (userData : UserData.t) (organization : OrganizationAccount.t)
         (invitedByUser : UserDocument.t),
    UserData.name userData = ""
    \/ UserData.email userData = ""
    \/ UserData.role userData = JsNull
    \/ UserData.role userData = JsUndefined ->
    invite userData organization invitedByUser
    = Throw (BadRequestException MSG_PROPERTIES_REQUIRED).
Proof.
  intros [name email locale role] organization invitedByUser. simpl.
  unfold inviteUserToOrganization. simpl.
  intros [-> | [-> | [-> | ->]]]; try reflexivity.
  - destruct role; reflexivity.
  - destruct role; [reflexivity | reflexivity |].
    rewrite orb_true_r. reflexivity.
Qed.

(** X19. A user who is neither a site admin nor a member of the organization
    cannot invite anybody: every requested role is refused with
    [ForbiddenException]. *)
Theorem outsider_cannot_invite :
  forall (name email locale : string) (r : OrganizationRole)
         (organization : OrganizationAccount.t) (invitedByUser : UserDocument.t),
    name <> "" -> email <> "" ->
    UserDocument.role invitedByUser <> UserRoles.ADMIN ->
    (forall m, In m (OrganizationAccount.members organization) ->
       ObjectId.equals (UserDocument._id (Member.user m))
         (UserDocument._id invitedByUser) = false) ->
    invite (UserData.mk name email locale (JsVal r)) organization invitedByUser
    = Throw (ForbiddenException (msgEscalation JsUndefined r)).
Proof.
  intros name email locale r organization invitedByUser Hname Hemail Hsite Hnone.
  unfold inviteUserToOrganization. simpl.
  rewrite (strFalsy_false _ Hname), (strFalsy_false _ Hemail). simpl.
  unfold checkPrivilegeEscalation, inviterRoleInOrg.
  rewrite (UserRoles_eqb_ADMIN _ Hsite). simpl.
  apply arrayFind_none in Hnone. rewrite Hnone. simpl.
  destruct r; reflexivity.
Qed.

(** X20. An e-mail that already belongs to a member is refused with
    [BadRequestException] once the escalation check is passed, without the
    user collection, Auth0 or the database being consulted. *)
Theorem invite_existing_member :
  forall (name email locale : string) (r : OrganizationRole)
         (organization : OrganizationAccount.t) (invitedByUser : UserDocument.t)
         (member : Member.t),
    name <> "" -> email <> "" ->
    checkPrivilegeEscalation r organization invitedByUser = Return tt ->
    In member (OrganizationAccount.members organization) ->
    UserDocument.email (Member.user member) = email ->
    invite (UserData.mk name email locale (JsVal r)) organization invitedByUser
    = Throw (BadRequestException MSG_ALREADY_MEMBER).
Proof.
  intros name email locale r organization invitedByUser member
    Hname Hemail Hcheck Hin Hmail.
  unfold inviteUserToOrganization. simpl.
  rewrite (strFalsy_false _ Hname), (strFalsy_false _ Hemail), Hcheck. simpl.
  unfold addInvitedMember.
  destruct (arrayFind_exists
              (fun currentMember =>
                 String.eqb (UserDocument.email (Member.user currentMember)) email)
              (OrganizationAccount.members organization) member Hin)
    as [m' ->]; [apply String.eqb_eq, Hmail | reflexivity].
Qed.

(** X21. A successful invitation: when the escalation check is passed, no
    member has the e-mail, the invited user is the local user of that e-mail
    or, failing one, the user [inviteNonLocalUser] creates, no member has
    that user's id yet, and saving returns the organization with the new
    member pushed at the end, the call returns that user with exactly the
    requested role. *)
Theorem invite_success :
  forall (name email locale : string) (r : OrganizationRole)
         (organization : OrganizationAccount.t)
         (invitedByUser invitedUser : UserDocument.t),
    name <> "" -> email <> "" ->
    checkPrivilegeEscalation r organization invitedByUser = Return tt ->
    (forall m, In m (OrganizationAccount.members organization) ->
       String.eqb (UserDocument.email (Member.user m)) email = false) ->
    (findOneByEmail email = JsVal invitedUser
     \/ ((findOneByEmail email = JsNull \/ findOneByEmail email = JsUndefined)
         /\ inviteNonLocalUser name email locale = Return invitedUser)) ->
    (forall m, In m (OrganizationAccount.members organization) ->
       ObjectId.equals (UserDocument._id (Member.user m))
         (UserDocument._id invitedUser) = false) ->
    (let pushed :=
       OrganizationAccount.mk (OrganizationAccount.id organization)
         (OrganizationAccount.accountType organization)
         (OrganizationAccount.members organization
            ++ [Member.mk invitedUser r]) in
     save pushed = Return pushed) ->
    invite (UserData.mk name email locale (JsVal r)) organization invitedByUser
    = Return (Member.mk invitedUser r).
Proof.
  intros name email locale r organization invitedByUser invitedUser
    Hname Hemail Hcheck Hnomail Huser Hnoid Hsave.
  unfold inviteUserToOrganization. simpl.
  rewrite (strFalsy_false _ Hname), (strFalsy_false _ Hemail), Hcheck. simpl.
  unfold addInvitedMember.
  apply arrayFind_none in Hnomail. rewrite Hnomail.
  assert (Hresolved :
    match findOneByEmail email with
    | JsVal localUser => Return localUser
    | _ => inviteNonLocalUser name email locale
    end = Return invitedUser).
  { destruct Huser as [-> | [[-> | ->] ->]]; reflexivity. }
  rewrite Hresolved. simpl. cbv zeta in Hsave. rewrite Hsave. simpl.
  rewrite arrayFind_app.
  apply arrayFind_none in Hnoid. rewrite Hnoid. simpl.
  unfold ObjectId.equals. rewrite String.eqb_refl.
  destruct invitedUser. reflexivity.
Qed.

End InviteFurther.

Lemma invite_requires_properties_witness :
  inviteUserToOrganization Sample.findNobody Sample.inviteOk Sample.saveOk
    (UserData.mk "New User" "" "en" (JsVal OrganizationRole.GUEST))
    Sample.org Sample.siteAdmin
  = Throw (BadRequestException MSG_PROPERTIES_REQUIRED).
Proof.
  apply (invite_requires_properties Sample.findNobody Sample.inviteOk Sample.saveOk).
  right. left. reflexivity.
Defined.

Lemma outsider_cannot_invite_witness :
  inviteUserToOrganization Sample.findNobody Sample.inviteOk Sample.saveOk
    (UserData.mk "New User" "new-user@email.com" "en" (JsVal OrganizationRole.GUEST))
    Sample.org Sample.outsider
  = Throw (ForbiddenException (msgEscalation JsUndefined OrganizationRole.GUEST)).
Proof.
  apply (outsider_cannot_invite Sample.findNobody Sample.inviteOk Sample.saveOk);
    try discriminate.
  intros m [<- | [<- | [<- | []]]]; reflexivity.
Defined.

Lemma invite_existing_member_witness :
  inviteUserToOrganization Sample.findNobody Sample.inviteOk Sample.saveOk
    (UserData.mk "Org Guest" "org-guest@email.com" "en" (JsVal OrganizationRole.USER))
    Sample.org Sample.orgAdmin
  = Throw (BadRequestException MSG_ALREADY_MEMBER).
Proof.
  apply (invite_existing_member Sample.findNobody Sample.inviteOk Sample.saveOk
           _ _ _ _ _ _ (Member.mk Sample.orgGuest OrganizationRole.GUEST));
    try discriminate; try reflexivity.
  simpl. tauto.
Defined.

Lemma invite_success_witness :
  inviteUserToOrganization Sample.findNobody Sample.inviteOk Sample.saveOk
    (UserData.mk "New User" "new-user@email.com" "en" (JsVal OrganizationRole.USER))
    Sample.org Sample.orgAdmin
  = Return (Member.mk
              (UserDocument.mk (Sample.oid "5d492ebfcaa0a917504481d9")
                 UserRoles.USER "New User" "new-user@email.com")
              OrganizationRole.USER).
Proof.
  apply (invite_success Sample.findNobody Sample.inviteOk Sample.saveOk);
    try discriminate; try reflexivity.
  - intros m [<- | [<- | [<- | []]]]; reflexivity.
  - right. split; [right; reflexivity | reflexivity].
  - intros m [<- | [<- | [<- | []]]]; reflexivity.
Defined.

(** ** Parsing identifiers *)

Section ParseProperties.

Variable newObjectId : string -> Result ObjectId.t.

Local Abbreviation parse := (parseObjectId newObjectId).
Local Abbreviation pipe := (transform newObjectId).

(** X22. [parseObjectId] returns an [ObjectId] instance as it is; it returns
    an identifier for a string only when the string has 24 characters and
    the driver's constructor accepts it. Every other input fails: with a
    [BadRequestException] carrying the value when the value can be rendered
    in the message, as every string can, even one the constructor throws on;
    and with the exception of the rendering itself when it cannot. *)
Theorem parseObjectId_spec :
  forall value : Unknown,
    (forall o, value = UObjectId o -> parse value = Return o)
    /\ (forall o, parse value = Return o <->
          value = UObjectId o
          \/ exists s, value = UString s /\ String.length s = 24%nat
                       /\ newObjectId s = Return o)
    /\ ((exists o, parse value = Return o)
        \/ (exists text,
              renderUnknown value = Return text
              /\ parse value
                 = Throw (BadRequestException
                            ("value " ++ text ++ " is not a valid ID")))
        \/ (exists e, renderUnknown value = Throw e /\ parse value = Throw e))
    /\ (forall s, value = UString s ->
          (exists o, parse value = Return o)
          \/ parse value
             = Throw (BadRequestException ("value " ++ s ++ " is not a valid ID"))).
Proof.
  intros value. split; [intros o ->; reflexivity |].
  destruct value as [o' | s | shown again]; simpl.
  - split; [| split; [eauto | discriminate]]. intros o. split.
    + intros [= ->]. auto.
    + intros [[= ->] | (s & H & _)]; [reflexivity | discriminate].
  - destruct (Nat.eqb (String.length s) 24) eqn:Hlen.
    + apply Nat.eqb_eq in Hlen. destruct (newObjectId s) as [e | o'] eqn:Hnew.
      * split; [| split; [right; left; eauto | intros s' [= <-]; auto]].
        intros o. split; [discriminate |].
        intros [H | (s' & [= <-] & _ & H)]; [discriminate | congruence].
      * split; [| split; [eauto | intros s' [= <-]; eauto]]. intros o. split.
        -- intros [= ->]. right. eauto.
        -- intros [H | (s' & [= <-] & _ & H)]; [discriminate | congruence].
    + apply Nat.eqb_neq in Hlen.
      split; [| split; [right; left; eauto | intros s' [= <-]; auto]].
      intros o. split; [discriminate |].
      intros [H | (s' & [= <-] & Hl & _)]; [discriminate | contradiction].
  - split; [| split; [| discriminate]].
    + intros o. split.
      * destruct shown; discriminate.
      * intros [H | (s & H & _)]; discriminate.
    + destruct shown as [e | text]; simpl; [right; right | right; left]; eauto.
Qed.

(** X23. [ParseObjectIdPipe.transform]: a handler parameter declared with a
    type other than [ObjectId] or [Object] is an
    [InternalServerErrorException] whatever the value, a valid identifier
    included. Otherwise the pipe returns exactly what [parseObjectId]
    returns; where that throws, whatever it throws, the pipe throws a
    [BadRequestException] when the value can be rendered in the message, as
    every string can, and the exception of the rendering when it cannot. *)
Theorem transform_spec :
  forall (value : Unknown) (metadata : ArgumentMetadata.t),
    (forall name, ArgumentMetadata.metatype metadata = JsVal (MOtherType name) ->
       exists msg, pipe value metadata = Throw (InternalServerErrorException msg))
    /\ ((forall name,
           ArgumentMetadata.metatype metadata <> JsVal (MOtherType name)) ->
        (forall o, pipe value metadata = Return o <-> parse value = Return o)
        /\ ((exists o, pipe value metadata = Return o)
            \/ (exists text msg,
                  renderUnknownAgain value = Return text
                  /\ pipe value metadata = Throw (BadRequestException msg))
            \/ (exists e,
                  renderUnknownAgain value = Throw e
                  /\ pipe value metadata = Throw e))
        /\ (forall s, value = UString s ->
              (exists o, pipe value metadata = Return o)
              \/ exists msg,
                   pipe value metadata = Throw (BadRequestException msg))).
Proof.
  intros value metadata. unfold transform. split.
  - intros name ->. simpl. eauto.
  - intros Hmeta.
    assert (Hcases :
      forall mt, nullish (ArgumentMetadata.metatype metadata) MObjectId = mt ->
                 mt = MObjectId \/ mt = MObject).
    { intros mt <-.
      destruct (ArgumentMetadata.metatype metadata) as [| |[| |name]] eqn:E;
        simpl; auto.
      destruct (Hmeta name). reflexivity. }
    destruct (Hcases _ eq_refl) as [-> | ->];
      destruct value as [o | s | shown [e | text]]; simpl;
      try destruct (Nat.eqb (String.length s) 24);
      try destruct (newObjectId s);
      try destruct shown;
      simpl; repeat split; intros; try discriminate; try congruence; eauto 7.
Qed.

End ParseProperties.

(** With a constructor that accepts hexadecimal strings: a 24-digit string is
    parsed, a shorter one and a non-hexadecimal one are refused, and a
    handler declared with [String] is a server error. *)
Example transform_samples :
  let param := ArgumentMetadata.mk PParam (JsVal MObjectId) (JsVal "id") in
  let body := ArgumentMetadata.mk PBody JsUndefined JsUndefined in
  transform Fixture.newObjectId (UString "5d492ebfcaa0a917504481df") param
  = Return (ObjectId.mk "5d492ebfcaa0a917504481df")
  /\ transform Fixture.newObjectId (UString "5d492ebfcaa0") param
     = Throw (BadRequestException
                "Parameter id with value 5d492ebfcaa0 is not a valid ID.")
  /\ transform Fixture.newObjectId (UString "5d492ebfcaa0a91750448xyz") body
     = Throw (BadRequestException
                "Parameter unknown with value 5d492ebfcaa0a91750448xyz is not a valid ID.")
  /\ transform Fixture.newObjectId (UString "5d492ebfcaa0a917504481df")
       (ArgumentMetadata.mk PParam (JsVal (MOtherType (JsVal "String"))) (JsVal "id"))
     = Throw (InternalServerErrorException
                "Invalid parameter type annotation. param:id, metatype String")
  /\ transform Fixture.newObjectId
       (UOther (Throw (TypeError "Cannot convert object to primitive value"))
          (Throw (TypeError "Cannot convert object to primitive value")))
       body
     = Throw (TypeError "Cannot convert object to primitive value")
  /\ transform Fixture.newObjectId
       (UOther (Return "[object Object]") (Return "[object Object]")) body
     = Throw (BadRequestException
                "Parameter unknown with value [object Object] is not a valid ID.").
Proof. repeat split. Qed.
